(** * gcplog: structured logging for Google Cloud, verified

    A shallow embedding of the Go package [gcplog] (file [gcplog.go]) and
    the proofs of its specification.

    Go strings are byte sequences; they are modelled by [string], whose
    characters are the 8-bit [ascii] values.  The package leans on the Go
    runtime packages [strings], [fmt], [encoding/json] and [os]; each gets
    a module of its own below, holding a model of the functions that
    [gcplog] calls.  Where a runtime function is only modelled on a part
    of its domain, the remainder is a parameter, so that nothing is proved
    from a guess about it.  The embedding of [gcplog.go] itself is the
    module [gcplog]; the theorems follow in Part II. *)

From Stdlib Require Import ZArith NArith Bool List Lia.
From Stdlib Require Import Strings.String Strings.Ascii Numbers.DecimalString.
From Equations Require Import Equations.
Import ListNotations.

Local Open Scope string_scope.
Local Open Scope Z_scope.

(* ===================================================================== *)
(** * Part I: definitions *)
(* ===================================================================== *)

(** ** Byte strings *)

Module Bytes.

(** Numeric value of a byte, as Go's [s[i]] gives it. *)
Definition val (c : ascii) : Z := Z.of_N (N_of_ascii c).

(** [between lo c hi] is Go's [lo <= c && c <= hi] on a byte. *)
Definition between (lo : Z) (c : ascii) (hi : Z) : bool :=
  (lo <=? val c) && (val c <=? hi).

Fixpoint map (f : ascii -> ascii) (s : string) : string :=
  match s with
  | EmptyString => EmptyString
  | String c s' => String (f c) (map f s')
  end.

Fixpoint all (p : ascii -> bool) (s : string) : bool :=
  match s with
  | EmptyString => true
  | String c s' => p c && all p s'
  end.

Fixpoint any (p : ascii -> bool) (s : string) : bool :=
  match s with
  | EmptyString => false
  | String c s' => p c || any p s'
  end.

(** [s[n:]] *)
Fixpoint drop (n : nat) (s : string) : string :=
  match n, s with
  | O, _ => s
  | S _, EmptyString => EmptyString
  | S n', String _ s' => drop n' s'
  end.

(** [s[:n]] *)
Fixpoint take (n : nat) (s : string) : string :=
  match n, s with
  | O, _ => EmptyString
  | S _, EmptyString => EmptyString
  | S n', String c s' => String c (take n' s')
  end.

(** The bytes of [s] from last to first: the view of the runtime's
    backward scans ([s[i-1]], [i--]). *)
Fixpoint rev_onto (s acc : string) : string :=
  match s with
  | EmptyString => acc
  | String c s' => rev_onto s' (String c acc)
  end.

Definition rev (s : string) : string := rev_onto s EmptyString.

(** Dropping bytes never lengthens a string; the loops below that consume
    a whole rune per step terminate by it. *)
Lemma length_drop_le (n : nat) (s : string) :
  (String.length (drop n s) <= String.length s)%nat.
Proof. revert s; induction n; intros [|c s]; simpl; auto. Qed.

End Bytes.

(** ** Package [unicode/utf8] *)

Module utf8.

Definition RuneError : Z := 65533.
Definition RuneSelf : Z := 128.

(** The entries of the table [first], with the [acceptRanges] entry each
    one selects. *)
Inductive lead : Type :=
| as_                            (* an ASCII byte *)
| xx                             (* never the first byte of a rune *)
| sz (size : nat) (lo hi : Z).   (* length, and range of the second byte *)

Definition first (s0 : ascii) : lead :=
  let b := Bytes.val s0 in
  if b <? 128 then as_
  else if b <? 194 then xx
  else if b <? 224 then sz 2 128 191
  else if b =? 224 then sz 3 160 191
  else if b <? 237 then sz 3 128 191
  else if b =? 237 then sz 3 128 159
  else if b <? 240 then sz 3 128 191
  else if b =? 240 then sz 4 144 191
  else if b <? 244 then sz 4 128 191
  else if b =? 244 then sz 4 128 143
  else xx.

(** [locb <= c && c <= hicb]: a continuation byte. *)
Definition cont (c : ascii) : bool := Bytes.between 128 c 191.

(** [utf8.DecodeRuneInString]: the first rune of [s] and its width in
    bytes; [(RuneError, 1)] on an invalid encoding.  The test [n < sz] of
    the runtime is the [EmptyString] branch of each [match]: both answer
    [(RuneError, 1)]. *)
Definition DecodeRuneInString (s : string) : Z * nat :=
  match s with
  | EmptyString => (RuneError, 0%nat)
  | String s0 t0 =>
    match first s0 with
    | as_ => (Bytes.val s0, 1%nat)
    | xx => (RuneError, 1%nat)
    | sz size lo hi =>
      match t0 with
      | EmptyString => (RuneError, 1%nat)
      | String s1 t1 =>
        if negb (Bytes.between lo s1 hi) then (RuneError, 1%nat) else
        if (size <=? 2)%nat then
          (Z.lor (Z.shiftl (Z.land (Bytes.val s0) 31) 6)
                 (Z.land (Bytes.val s1) 63), 2%nat)
        else
        match t1 with
        | EmptyString => (RuneError, 1%nat)
        | String s2 t2 =>
          if negb (cont s2) then (RuneError, 1%nat) else
          if (size <=? 3)%nat then
            (Z.lor (Z.lor (Z.shiftl (Z.land (Bytes.val s0) 15) 12)
                          (Z.shiftl (Z.land (Bytes.val s1) 63) 6))
                   (Z.land (Bytes.val s2) 63), 3%nat)
          else
          match t2 with
          | EmptyString => (RuneError, 1%nat)
          | String s3 _ =>
            if negb (cont s3) then (RuneError, 1%nat) else
            (Z.lor (Z.lor (Z.lor (Z.shiftl (Z.land (Bytes.val s0) 7) 18)
                                 (Z.shiftl (Z.land (Bytes.val s1) 63) 12))
                          (Z.shiftl (Z.land (Bytes.val s2) 63) 6))
                   (Z.land (Bytes.val s3) 63), 4%nat)
          end
        end
      end
    end
  end.

(** [utf8.RuneStart]: [b&0xC0 != 0x80]. *)
Definition RuneStart (b : ascii) : bool :=
  negb (Z.land (Bytes.val b) 192 =? 128).

(** The backward loop of [DecodeLastRuneInString],
    [for start--; start >= lim; start--], over the bytes before the last
    one (nearest first): how many bytes it steps back before it meets a
    rune start, within the [UTFMax] window. *)
Fixpoint backTo (window : nat) (before : string) : option nat :=
  match window, before with
  | S w, String c rest =>
      if RuneStart c then Some 1%nat else option_map S (backTo w rest)
  | _, _ => None
  end.

(** [DecodeLastRuneInString] on the reversed string.  When the loop meets
    no rune start the runtime decodes from a byte that starts no rune, or
    from more than [UTFMax] bytes, and answers [(RuneError, 1)]. *)
Definition lastRev (rs : string) : Z * nat :=
  match rs with
  | EmptyString => (RuneError, 0%nat)
  | String c before =>
    if Bytes.val c <? RuneSelf then (Bytes.val c, 1%nat) else
    match backTo 3 before with
    | None => (RuneError, 1%nat)
    | Some k =>
      let '(r, size) := DecodeRuneInString (Bytes.rev (Bytes.take (S k) rs)) in
      if (size =? S k)%nat then (r, size) else (RuneError, 1%nat)
    end
  end.

(** [utf8.DecodeLastRuneInString]: the last rune of [s] and its width. *)
Definition DecodeLastRuneInString (s : string) : Z * nat :=
  lastRev (Bytes.rev s).

End utf8.

(** ** Package [unicode] *)

Module unicode.

(** [unicode.IsSpace]: the Latin-1 switch, then the table [White_Space]. *)
Definition IsSpace (r : Z) : bool :=
  if (0 <=? r) && (r <=? 255) then
    (r =? 9) || (r =? 10) || (r =? 11) || (r =? 12) || (r =? 13)
    || (r =? 32) || (r =? 133) || (r =? 160)
  else
    (r =? 5760) || ((8192 <=? r) && (r <=? 8202))
    || ((8232 <=? r) && (r <=? 8233))
    || (r =? 8239) || (r =? 8287) || (r =? 12288).

End unicode.

(** ** Package [strings] *)

Module strings.

(** [c -= 'a' - 'A'] for a byte in ['a'..'z'], any other byte unchanged. *)
Definition upperByte (c : ascii) : ascii :=
  if Bytes.between 97 c 122 then ascii_of_N (N_of_ascii c - 32) else c.

(** No byte of [s] reaches [utf8.RuneSelf]. *)
Definition isASCII (s : string) : bool :=
  Bytes.all (fun c => Bytes.val c <? utf8.RuneSelf) s.

Definition hasLower (s : string) : bool :=
  Bytes.any (fun c => Bytes.between 97 c 122) s.

Section ToUpper.

(** [strings.ToUpper] has two branches.  On a string of ASCII bytes it
    works byte by byte, and that branch is modelled in full.  Otherwise it
    returns [Map(unicode.ToUpper, s)], which consults the case tables of
    the runtime; that branch is the parameter [upperNonASCII]. *)
Variable upperNonASCII : string -> string.

Definition ToUpper (s : string) : string :=
  if isASCII s then
    if hasLower s then Bytes.map upperByte s else s
  else upperNonASCII s.

End ToUpper.

(** [strings.TrimLeftFunc]: [s] from its first rune that [f] rejects. *)
Equations? TrimLeftFunc (s : string) (f : Z -> bool) : string
  by wf (String.length s) lt :=
  TrimLeftFunc EmptyString f := EmptyString;
  TrimLeftFunc (String c t) f with utf8.DecodeRuneInString (String c t) => {
    | (r, size) with f r => {
      | true := TrimLeftFunc (Bytes.drop (size - 1) t) f;
      | false := String c t } }.
Proof. pose proof (Bytes.length_drop_le (size - 1) t); simpl; lia. Qed.

(** The scan of [strings.TrimRightFunc], on the reversed string: runes are
    taken off the end while [f] accepts them. *)
Equations? trimRightRev (rs : string) (f : Z -> bool) : string
  by wf (String.length rs) lt :=
  trimRightRev EmptyString f := EmptyString;
  trimRightRev (String c t) f with utf8.lastRev (String c t) => {
    | (r, size) with f r => {
      | true := trimRightRev (Bytes.drop (size - 1) t) f;
      | false := String c t } }.
Proof. pose proof (Bytes.length_drop_le (size - 1) t); simpl; lia. Qed.

(** [strings.TrimRightFunc] *)
Definition TrimRightFunc (s : string) (f : Z -> bool) : string :=
  Bytes.rev (trimRightRev (Bytes.rev s) f).

(** [strings.TrimFunc] *)
Definition TrimFunc (s : string) (f : Z -> bool) : string :=
  TrimRightFunc (TrimLeftFunc s f) f.

(** [strings.TrimSpace].  The runtime first strips ASCII white space with
    two byte loops and hands over to [TrimFunc(_, unicode.IsSpace)] at the
    first byte that is not ASCII; both ways yield the bytes of
    [TrimFunc(s, unicode.IsSpace)]. *)
Definition TrimSpace (s : string) : string := TrimFunc s unicode.IsSpace.

End strings.

(** ** The process: standard output and termination *)

Module process.

(** What a call does to its caller: it returns, or the process ends. *)
Inductive outcome (A : Type) : Type :=
| Returned (a : A)
| Exited (status : Z).
Arguments Returned {A} a.
Arguments Exited {A} status.

(** A computation takes the bytes written to standard output so far and
    yields its outcome and the bytes written by then. *)
Definition Proc (A : Type) : Type := string -> outcome A * string.

Definition ret {A : Type} (a : A) : Proc A := fun out => (Returned a, out).

(** Sequencing; nothing runs after the process has ended. *)
Definition bind {A B : Type} (m : Proc A) (k : A -> Proc B) : Proc B :=
  fun out =>
    match m out with
    | (Returned a, out') => k a out'
    | (Exited status, out') => (Exited status, out')
    end.

Definition write (s : string) : Proc unit :=
  fun out => (Returned tt, out ++ s).

Definition exit {A : Type} (status : Z) : Proc A :=
  fun out => (Exited status, out).

End process.

Notation "m ;; k" := (process.bind m (fun _ => k))
  (at level 61, right associativity).

(** ** Package [os] *)

Module os.

(** [os.Exit] *)
Definition Exit {A : Type} (code : Z) : process.Proc A := process.exit code.

End os.

(** ** Package [fmt] *)

Module fmt.

(** Operands ([any]).  Strings and integers are modelled in full.  An
    operand of another type is [VOther]: whether its [reflect] kind is
    [String], the name of its type and its text under [%v]. *)
Inductive any : Type :=
| VString (s : string)
| VInt (n : Z)
| VNil
| VOther (kindString : bool) (typeName shown : string).

(** [arg != nil && reflect.TypeOf(arg).Kind() == reflect.String] *)
Definition isString (arg : any) : bool :=
  match arg with
  | VString _ => true
  | VOther k _ _ => k
  | _ => false
  end.

Definition fmtInteger (n : Z) : string := NilEmpty.string_of_int (Z.to_int n).

(** [p.printArg(arg, 'v')] *)
Definition printValue (arg : any) : string :=
  match arg with
  | VString s => s
  | VInt n => fmtInteger n
  | VNil => "<nil>"
  | VOther _ _ shown => shown
  end.

(** [doPrint]: a space goes between two operands when neither is a
    string. *)
Fixpoint doPrint (a : list any) (argNum : nat) (prevString : bool) : string :=
  match a with
  | [] => EmptyString
  | arg :: rest =>
      (if (0 <? argNum)%nat && negb (isString arg) && negb prevString
       then " " else EmptyString)
      ++ printValue arg ++ doPrint rest (S argNum) (isString arg)
  end.

(** [fmt.Sprint] *)
Definition Sprint (a : list any) : string := doPrint a 0 false.

Definition typeOf (arg : any) : string :=
  match arg with
  | VString _ => "string"
  | VInt _ => "int"
  | VNil => EmptyString
  | VOther _ t _ => t
  end.

(** An operand as the error texts of [fmt] show it: [type=value]. *)
Definition typed (arg : any) : string :=
  match arg with
  | VNil => "<nil>"
  | _ => typeOf arg ++ "=" ++ printValue arg
  end.

(** [badVerb]: [%!verb(type=value)] *)
Definition badVerb (verb : ascii) (arg : any) : string :=
  "%!" ++ String verb ("(" ++ typed arg ++ ")").

(** [p.printArg(arg, verb)] for the verbs [v], [s] and [d] without flags;
    [None] outside of that. *)
Definition printArg (arg : any) (verb : ascii) : option string :=
  if Ascii.eqb verb "v" then Some (printValue arg) else
  match arg with
  | VString s =>
      if Ascii.eqb verb "s" then Some s
      else if Ascii.eqb verb "d" then Some (badVerb verb arg) else None
  | VInt n =>
      if Ascii.eqb verb "d" then Some (fmtInteger n)
      else if Ascii.eqb verb "s" then Some (badVerb verb arg) else None
  | VNil =>
      if Ascii.eqb verb "s" || Ascii.eqb verb "d"
      then Some (badVerb verb arg) else None
  | VOther _ _ _ => None
  end.

(** [missingArg]: [%!verb(MISSING)] *)
Definition missingArg (verb : ascii) : string :=
  "%!" ++ String verb "(MISSING)".

Fixpoint commaSep (l : list string) : string :=
  match l with
  | [] => EmptyString
  | [x] => x
  | x :: rest => x ++ ", " ++ commaSep rest
  end.

(** The closing check of [doPrintf]: operands left over are reported,
    unless the format reordered them. *)
Definition extra (a : list any) (argNum : nat) (reordered : bool) : string :=
  if negb reordered && (argNum <? List.length a)%nat
  then "%!(EXTRA " ++ commaSep (List.map typed (skipn argNum a)) ++ ")"
  else EmptyString.

(** Where [doPrintf] stands in the format. *)
Inductive pstate : Type :=
| Text                       (* copying bytes up to the next [%] *)
| Percent                    (* just after [%] *)
| Index (n : option Z)       (* inside [[n]], the digits read so far *)
| Indexed.                   (* after a good [[n]], before its verb *)

Definition digit (c : ascii) : option Z :=
  if Bytes.between 48 c 57 then Some (Bytes.val c - 48) else None.

Definition isVerb (c : ascii) : bool :=
  Ascii.eqb c "v" || Ascii.eqb c "s" || Ascii.eqb c "d".

Definition app2 (x y : option string) : option string :=
  match x, y with
  | Some a, Some b => Some (a ++ b)
  | _, _ => None
  end.

(** [doPrintf], one byte of the format per step, for formats made of
    plain bytes, [%%], and the verbs [%v], [%s], [%d], each with or
    without an explicit argument index [[n]] that names an operand
    ([parsenum] gives up on a number beyond a million).  [argNum] and
    [reordered] are the variables of that name in the runtime.  [None]:
    the format, or an operand under its verb, is outside of this fragment
    (flags, width, precision, other verbs, a bad index). *)
Fixpoint doPrintf (st : pstate) (format : string) (a : list any)
         (argNum : nat) (reordered : bool) : option string :=
  match format with
  | EmptyString =>
      match st with
      | Text => Some (extra a argNum reordered)
      | Percent | Indexed => Some ("%!(NOVERB)" ++ extra a argNum reordered)
      | Index _ => None
      end
  | String c rest =>
      match st with
      | Text =>
          if Ascii.eqb c "%" then doPrintf Percent rest a argNum reordered
          else option_map (String c) (doPrintf Text rest a argNum reordered)
      | Percent | Indexed =>
          if Ascii.eqb c "%" then
            option_map (String c) (doPrintf Text rest a argNum reordered)
          else if isVerb c then
            match nth_error a argNum with
            | Some arg =>
                app2 (printArg arg c)
                     (doPrintf Text rest a (S argNum) reordered)
            | None =>
                option_map (append (missingArg c))
                           (doPrintf Text rest a argNum reordered)
            end
          else
            match st with
            | Percent =>
                if Ascii.eqb c "["
                then doPrintf (Index None) rest a argNum true
                else None
            | _ => None
            end
      | Index n =>
          match digit c with
          | Some d =>
              let num := match n with Some m => m | None => 0 end in
              if 1000000 <? num then None
              else doPrintf (Index (Some (num * 10 + d))) rest a argNum
                            reordered
          | None =>
              if Ascii.eqb c "]" then
                match n with
                | Some width =>
                    if (1 <=? width)
                       && (width - 1 <? Z.of_nat (List.length a))
                    then doPrintf Indexed rest a (Z.to_nat (width - 1))
                                  reordered
                    else None
                | None => None
                end
              else None
          end
      end
  end.

Section Sprintf.

(** [fmt.Sprintf] outside of the fragment of [doPrintf]. *)
Variable sprintfOther : string -> list any -> string.

(** [fmt.Sprintf] *)
Definition Sprintf (format : string) (a : list any) : string :=
  match doPrintf Text format a 0 false with
  | Some text => text
  | None => sprintfOther format a
  end.

End Sprintf.

(** [fmt.Print] of one string: its bytes go to standard output. *)
Definition Print (s : string) : process.Proc unit := process.write s.

End fmt.

(** ** Package [encoding/json] *)

Module json.

(** The double quote. *)
Definition dq : ascii := "034".

Definition quoted (s : string) : string :=
  String dq (s ++ String dq EmptyString).

Definition hex : string := "0123456789abcdef".

Definition hexAt (n : Z) : ascii :=
  match String.get (Z.to_nat n) hex with
  | Some c => c
  | None => "0"%char
  end.

(** [htmlSafeSet]: the ASCII bytes that go out as they are. *)
Definition htmlSafe (b : ascii) : bool :=
  Bytes.between 32 b 127 &&
  negb (Ascii.eqb b dq || Ascii.eqb b "&" || Ascii.eqb b "<"
        || Ascii.eqb b ">" || Ascii.eqb b "\").

(** The [switch b] of [appendString], for an ASCII byte outside of
    [htmlSafeSet]. *)
Definition escapeByte (b : ascii) : string :=
  if Ascii.eqb b "\" || Ascii.eqb b dq then String "\" (String b EmptyString)
  else if Bytes.val b =? 8 then "\b"
  else if Bytes.val b =? 12 then "\f"
  else if Bytes.val b =? 10 then "\n"
  else if Bytes.val b =? 13 then "\r"
  else if Bytes.val b =? 9 then "\t"
  else "\u00" ++ String (hexAt (Z.shiftr (Bytes.val b) 4))
                   (String (hexAt (Z.land (Bytes.val b) 15)) EmptyString).

(** The replacement written for a byte that starts no valid rune. *)
Definition replacement : string := String "\" "ufffd".

(** The loop of [appendString] with [escapeHTML] set, as [json.Marshal]
    has it: what goes between the quotes. *)
Equations? escape (s : string) : string by wf (String.length s) lt :=
  escape EmptyString := EmptyString;
  escape (String b t) with Bytes.val b <? utf8.RuneSelf => {
    | true :=
        (if htmlSafe b then String b EmptyString else escapeByte b)
        ++ escape t;
    | false with utf8.DecodeRuneInString (String b t) => {
      | (c, size) :=
          if (c =? utf8.RuneError) && (size =? 1)%nat then
            replacement ++ escape t
          else if (c =? 8232) || (c =? 8233) then
            "\u202" ++ String (hexAt (Z.land c 15))
                         (escape (Bytes.drop (size - 1) t))
          else
            Bytes.take size (String b t)
            ++ escape (Bytes.drop (size - 1) t) } }.
Proof. all: pose proof (Bytes.length_drop_le (size - 1) t); simpl; lia. Qed.

(** [appendString]: a JSON string literal. *)
Definition appendString (s : string) : string := quoted (escape s).

Fixpoint commaSep (l : list string) : string :=
  match l with
  | [] => EmptyString
  | [x] => x
  | x :: rest => x ++ "," ++ commaSep rest
  end.

(** [json.Marshal] of a struct whose fields are strings, given as the
    list of its fields in declaration order, each with the key of its
    [json] tag: the encoding and the error, which is [nil]. *)
Definition Marshal (fields : list (string * string)) : string * option string :=
  ("{" ++ commaSep (List.map (fun kv => quoted (fst kv) ++ ":"
                                         ++ appendString (snd kv)) fields)
       ++ "}",
   None).

End json.

(** ** Package [gcplog] *)

Module gcplog.

Definition DEFAULT : string := "DEFAULT".
Definition INFO : string := "INFO".
Definition NOTICE : string := "NOTICE".
Definition WARN : string := "WARNING".
Definition WARNING : string := "WARNING".
Definition ERR : string := "ERROR".
Definition ERROR : string := "ERROR".
Definition CRIT : string := "CRITICAL".
Definition CRITICAL : string := "CRITICAL".
Definition ALERT : string := "ALERT".
Definition EMERGENCY : string := "EMERGENCY".
Definition DEBUG : string := "DEBUG".

(** [severityAll]: all valid severity levels. *)
Definition severityAll : list string :=
  [DEFAULT; INFO; NOTICE; WARNING; ERROR; CRITICAL; ALERT; EMERGENCY; DEBUG].

(** [type gcpLogMessage struct] *)
Module gcpLogMessage.
Record t : Type := { Severity : string; Message : string }.
(** The fields with their tags, [json:"severity"] and [json:"message"]. *)
Definition fields (m : t) : list (string * string) :=
  [("severity", Severity m); ("message", Message m)].
End gcpLogMessage.

(** [type Logger struct].  The methods have the receiver [*Logger]; the
    one method that writes through it, [SetSeverity], yields the logger
    after the call. *)
Record Logger : Type := { severity : string }.

(** [defaultLogger] *)
Definition defaultLogger : Logger := {| severity := DEFAULT |}.

(** The loop of [isValidSeverity], [for _, sev := range severityAll]; it
    leaves with [true] at the first [s == sev]. *)
Fixpoint rangeEq (s : string) (sevs : list string) : bool :=
  match sevs with
  | [] => false
  | sev :: rest => if String.eqb s sev then true else rangeEq s rest
  end.

(** [output] *)
Definition output (l : Logger) (s : string) : process.Proc unit :=
  let '(jsonBytes, _) :=
    json.Marshal (gcpLogMessage.fields
      {| gcpLogMessage.Severity := severity l;
         gcpLogMessage.Message := strings.TrimSpace s |}) in
  fmt.Print jsonBytes.

(** [prefix] *)
Definition prefix (l : Logger) (v : list fmt.any) : list fmt.any :=
  let p := [fmt.VString (severity l); fmt.VString ": "] in
  p ++ v.

(** [Print] *)
Definition Print (l : Logger) (v : list fmt.any) : process.Proc unit :=
  output l (fmt.Sprint v).

(** [Fatal] *)
Definition Fatal (l : Logger) (v : list fmt.any) : process.Proc unit :=
  output l (fmt.Sprint v) ;;
  os.Exit 1.

(** [PrefixPrint] *)
Definition PrefixPrint (l : Logger) (v : list fmt.any) : process.Proc unit :=
  output l (fmt.Sprint (prefix l v)).

(** [PrefixFatal] *)
Definition PrefixFatal (l : Logger) (v : list fmt.any) : process.Proc unit :=
  output l (fmt.Sprint (prefix l v)) ;;
  os.Exit 1.

(** [Severity] *)
Definition Severity (l : Logger) : string := severity l.

Section Runtime.

Variable upperNonASCII : string -> string.
Variable sprintfOther : string -> list fmt.any -> string.

Let ToUpper := strings.ToUpper upperNonASCII.
Let Sprintf := fmt.Sprintf sprintfOther.

(** [isValidSeverity] *)
Definition isValidSeverity (s : string) : bool :=
  let s := ToUpper s in
  rangeEq s severityAll.

(** [New] *)
Definition New (s : list string) : Logger :=
  match s with
  | s0 :: _ =>
      if isValidSeverity s0 then {| severity := s0 |} else defaultLogger
  | [] => defaultLogger
  end.

(** [SetSeverity]: the logger after the call. *)
Definition SetSeverity (l : Logger) (s : string) : Logger :=
  if isValidSeverity (ToUpper s) then {| severity := ToUpper s |} else l.

(** [Printf] *)
Definition Printf (l : Logger) (format : string) (v : list fmt.any)
  : process.Proc unit :=
  output l (Sprintf format v).

(** [Fatalf] *)
Definition Fatalf (l : Logger) (format : string) (v : list fmt.any)
  : process.Proc unit :=
  output l (Sprintf format v) ;;
  os.Exit 1.

(** [PrefixPrintf] *)
Definition PrefixPrintf (l : Logger) (format : string) (v : list fmt.any)
  : process.Proc unit :=
  output l (Sprintf ("%s%s" ++ format) (prefix l v)).

(** [PrefixFatalf] *)
Definition PrefixFatalf (l : Logger) (format : string) (v : list fmt.any)
  : process.Proc unit :=
  output l (Sprintf ("%s%s" ++ format) (prefix l v)) ;;
  os.Exit 1.

End Runtime.

End gcplog.

(** ** Instances and predicates of the statements *)

(** An instance of the parameter of [strings.ToUpper], for running the
    code on ASCII operands, where the parameter is not consulted. *)
Definition keepNonASCII (s : string) : string := s.

(** An instance of the parameter of [fmt.Sprintf], for running the code
    on formats of the modelled fragment. *)
Definition noOther (format : string) (a : list fmt.any) : string :=
  EmptyString.

(** Membership in a list of strings, as a boolean. *)
Definition among (s : string) (l : list string) : bool :=
  if in_dec string_dec s l then true else false.

(** A sequence of white-space runes, each in its UTF-8 encoding. *)
Inductive Blank : string -> Prop :=
| Blank_nil : Blank EmptyString
| Blank_rune (e s : string) (r : Z) :
    utf8.DecodeRuneInString e = (r, String.length e) ->
    unicode.IsSpace r = true ->
    Blank s -> Blank (e ++ s).

(** The loggers of the public interface: a call of [New], then any number
    of calls of [SetSeverity]. *)
Inductive reachable (up : string -> string) : gcplog.Logger -> Prop :=
| reach_New (args : list string) : reachable up (gcplog.New up args)
| reach_SetSeverity (l : gcplog.Logger) (s : string) :
    reachable up l -> reachable up (gcplog.SetSeverity up l s).

(** No control byte, hence no line break: the text is one line. *)
Definition oneLine (s : string) : bool :=
  Bytes.all (fun c => 32 <=? Bytes.val c) s.

(** The wire format: an object of the two keys [severity] and [message],
    in this order, without any white space; [sev] and [msg] are what goes
    between the quotes of the two values. *)
Definition record (sev msg : string) : string :=
  "{" ++ json.quoted "severity" ++ ":" ++ json.quoted sev ++ ","
      ++ json.quoted "message" ++ ":" ++ json.quoted msg ++ "}".

(** The format has no explicit argument index.  [doPrintf] reads an
    index where a bracket stands directly behind the [%] that opens a
    verb, and nowhere else: a bracket in the plain text, or behind [%%],
    is a byte of the text.  [afterPercent] tells that the byte before was
    such a [%]. *)
Fixpoint indexFreeFrom (afterPercent : bool) (format : string) : bool :=
  match format with
  | EmptyString => true
  | String c rest =>
      if afterPercent then negb (Ascii.eqb c "[") && indexFreeFrom false rest
      else indexFreeFrom (Ascii.eqb c "%") rest
  end.

Definition indexFree (format : string) : bool := indexFreeFrom false format.

(** The bytes of one emission, from the severity held by the logger and
    the text handed to [output]. *)
Definition emitted (sev text : string) : string :=
  record (json.escape sev) (json.escape (strings.TrimSpace text)).

(** The horizontal tab. *)
Definition tab : string := String "009" EmptyString.

(** ** JSON strings as a reader takes them (RFC 8259, section 7)

    No part of the program: the yardstick for the escaping that
    [encoding/json] applies. *)

Module rfc8259.

Definition byte (z : Z) : ascii := ascii_of_N (Z.to_N z).

(** A code point of the basic plane in UTF-8. *)
Definition utf8_of (r : Z) : string :=
  if r <? 128 then String (byte r) EmptyString
  else if r <? 2048 then
    String (byte (Z.lor 192 (Z.shiftr r 6)))
      (String (byte (Z.lor 128 (Z.land r 63))) EmptyString)
  else
    String (byte (Z.lor 224 (Z.shiftr r 12)))
      (String (byte (Z.lor 128 (Z.land (Z.shiftr r 6) 63)))
         (String (byte (Z.lor 128 (Z.land r 63))) EmptyString)).

Definition hexVal (c : ascii) : option Z :=
  if Bytes.between 48 c 57 then Some (Bytes.val c - 48)
  else if Bytes.between 97 c 102 then Some (Bytes.val c - 87)
  else if Bytes.between 65 c 70 then Some (Bytes.val c - 55)
  else None.

(** The four hexadecimal digits of a [\u] escape; a surrogate stands for
    no character of its own. *)
Definition codePoint (h1 h2 h3 h4 : ascii) : option Z :=
  match hexVal h1, hexVal h2, hexVal h3, hexVal h4 with
  | Some a, Some b, Some c, Some d =>
      let r := ((a * 16 + b) * 16 + c) * 16 + d in
      if (55296 <=? r) && (r <=? 57343) then None else Some r
  | _, _, _, _ => None
  end.

(** The two-character escapes. *)
Definition simpleEscape (e : ascii) : option ascii :=
  if Ascii.eqb e "034" || Ascii.eqb e "\" || Ascii.eqb e "/" then Some e
  else if Ascii.eqb e "b" then Some "008"%char
  else if Ascii.eqb e "f" then Some "012"%char
  else if Ascii.eqb e "n" then Some "010"%char
  else if Ascii.eqb e "r" then Some "013"%char
  else if Ascii.eqb e "t" then Some "009"%char
  else None.

(** The value of a string literal, from the text between its quotes:
    a quote or a control character may not stand there unescaped. *)
Fixpoint value (s : string) : option string :=
  match s with
  | EmptyString => Some EmptyString
  | String c rest =>
      if Ascii.eqb c "\" then
        match rest with
        | EmptyString => None
        | String e rest' =>
            if Ascii.eqb e "u" then
              match rest' with
              | String h1 (String h2 (String h3 (String h4 rest''))) =>
                  match codePoint h1 h2 h3 h4, value rest'' with
                  | Some r, Some v => Some (utf8_of r ++ v)
                  | _, _ => None
                  end
              | _ => None
              end
            else
              match simpleEscape e, value rest' with
              | Some x, Some v => Some (String x v)
              | _, _ => None
              end
        end
      else if Ascii.eqb c "034" || (Bytes.val c <? 32) then None
      else option_map (String c) (value rest)
  end.

End rfc8259.

(** What the encoder makes of a Go string, which need not be UTF-8: each
    byte that starts no valid rune becomes U+FFFD, the rest stays. *)
Equations? coerce (s : string) : string by wf (String.length s) lt :=
  coerce EmptyString := EmptyString;
  coerce (String b t) with utf8.DecodeRuneInString (String b t) => {
    | (c, size) :=
        if (c =? utf8.RuneError) && (size =? 1)%nat
        then rfc8259.utf8_of utf8.RuneError ++ coerce t
        else Bytes.take size (String b t)
             ++ coerce (Bytes.drop (size - 1) t) }.
Proof. pose proof (Bytes.length_drop_le (size - 1) t); simpl; lia. Qed.

(** The integers [lo], [lo + 1], ..., [n] of them. *)
Definition zrange (lo : Z) (n : nat) : list Z :=
  List.map (fun i => lo + Z.of_nat i) (seq 0 n).

(** ** The examples of the package (file of [Example] functions) *)

Module gcplog_test.

Section Runtime.

Variable upperNonASCII : string -> string.
Variable sprintfOther : string -> list fmt.any -> string.






End Runtime.

End gcplog_test.

(** ** A reader of the lines written

    No part of the program: a strict reader of the compact objects of two
    string members, to state what a collector of the log finds in a
    line. *)

Module jsonline.

(** A string literal, from just behind its opening quote to its closing
    quote: its value and the text behind it. *)
Fixpoint literal (s : string) : option (string * string) :=
  match s with
  | EmptyString => None
  | String c rest =>
      if Ascii.eqb c "034" then Some (EmptyString, rest)
      else if Ascii.eqb c "\" then
        match rest with
        | EmptyString => None
        | String e rest' =>
            if Ascii.eqb e "u" then
              match rest' with
              | String h1 (String h2 (String h3 (String h4 rest''))) =>
                  match rfc8259.codePoint h1 h2 h3 h4, literal rest'' with
                  | Some r, Some (v, tl) => Some (rfc8259.utf8_of r ++ v, tl)
                  | _, _ => None
                  end
              | _ => None
              end
            else
              match rfc8259.simpleEscape e, literal rest' with
              | Some x, Some (v, tl) => Some (String x v, tl)
              | _, _ => None
              end
        end
      else if Bytes.val c <? 32 then None
      else
        match literal rest with
        | Some (v, tl) => Some (String c v, tl)
        | None => None
        end
  end.

(** The byte [c], then the rest. *)
Definition expect (c : ascii) (s : string) : option string :=
  match s with
  | String c' rest => if Ascii.eqb c c' then Some rest else None
  | EmptyString => None
  end.

(** A member: a key, a colon, a string value. *)
Definition member (s : string) : option ((string * string) * string) :=
  match expect "034" s with
  | None => None
  | Some s1 =>
    match literal s1 with
    | None => None
    | Some (k, s2) =>
      match expect ":" s2 with
      | None => None
      | Some s3 =>
        match expect "034" s3 with
        | None => None
        | Some s4 =>
          match literal s4 with
          | None => None
          | Some (v, s5) => Some ((k, v), s5)
          end
        end
      end
    end
  end.

(** A whole line: an object of exactly two members, nothing behind it. *)
Definition object2 (line : string)
  : option ((string * string) * (string * string)) :=
  match expect "{" line with
  | None => None
  | Some s1 =>
    match member s1 with
    | None => None
    | Some (m1, s2) =>
      match expect "," s2 with
      | None => None
      | Some s3 =>
        match member s3 with
        | None => None
        | Some (m2, s4) =>
          match s4 with
          | String c EmptyString =>
              if Ascii.eqb c "}" then Some (m1, m2) else None
          | _ => None
          end
        end
      end
    end
  end.

End jsonline.

(** The twelve exported severity constants. *)
Definition exported : list string :=
  [gcplog.DEFAULT; gcplog.INFO; gcplog.NOTICE; gcplog.WARN; gcplog.WARNING;
   gcplog.ERR; gcplog.ERROR; gcplog.CRIT; gcplog.CRITICAL; gcplog.ALERT;
   gcplog.EMERGENCY; gcplog.DEBUG].

(** The format has no [%]: no verb, no escape. *)
Definition percentFree (format : string) : bool :=
  negb (Bytes.any (Ascii.eqb "%") format).

(** The line feed. *)
Definition newline : string := String "010" EmptyString.

(* ===================================================================== *)
(** * Part II: properties *)
(* ===================================================================== *)

(** ** Byte strings: append, take, drop, reverse *)

Section BytesFacts.

Lemma bytes_app_assoc (a b c : string) : (a ++ b) ++ c = a ++ b ++ c.
Proof. induction a as [|x a IH]; simpl; [reflexivity | now rewrite IH]. Qed.

Lemma bytes_app_nil_r (a : string) : a ++ EmptyString = a.
Proof. induction a as [|x a IH]; simpl; [reflexivity | now rewrite IH]. Qed.

Lemma bytes_length_app (a b : string) :
  String.length (a ++ b) = (String.length a + String.length b)%nat.
Proof. induction a as [|x a IH]; simpl; [reflexivity | now rewrite IH]. Qed.

Lemma bytes_take_drop (n : nat) (s : string) :
  Bytes.take n s ++ Bytes.drop n s = s.
Proof.
  revert s; induction n as [|n IH]; intros [|c s]; simpl; try reflexivity.
  now rewrite IH.
Qed.

Lemma bytes_length_take (n : nat) (s : string) :
  (n <= String.length s)%nat -> String.length (Bytes.take n s) = n.
Proof.
  revert s; induction n as [|n IH]; intros [|c s]; simpl; intros H;
    try reflexivity; try lia.
  rewrite IH; [reflexivity | lia].
Qed.

Lemma bytes_drop_app (a b : string) :
  Bytes.drop (String.length a) (a ++ b) = b.
Proof. induction a as [|x a IH]; simpl; [now destruct b | exact IH]. Qed.

Lemma bytes_take_app (a b : string) :
  Bytes.take (String.length a) (a ++ b) = a.
Proof. induction a as [|x a IH]; simpl; [now destruct b | now rewrite IH]. Qed.

Lemma bytes_rev_onto (s acc : string) :
  Bytes.rev_onto s acc = Bytes.rev s ++ acc.
Proof.
  unfold Bytes.rev. revert acc.
  induction s as [|c s IH]; intros acc; simpl; [reflexivity|].
  rewrite IH, (IH (String c EmptyString)), bytes_app_assoc. reflexivity.
Qed.

Lemma bytes_rev_cons (c : ascii) (s : string) :
  Bytes.rev (String c s) = Bytes.rev s ++ String c EmptyString.
Proof. unfold Bytes.rev at 1. simpl. apply bytes_rev_onto. Qed.

Lemma bytes_rev_app (a b : string) :
  Bytes.rev (a ++ b) = Bytes.rev b ++ Bytes.rev a.
Proof.
  induction a as [|x a IH]; simpl.
  - now rewrite bytes_app_nil_r.
  - now rewrite !bytes_rev_cons, IH, bytes_app_assoc.
Qed.

Lemma bytes_rev_rev (s : string) : Bytes.rev (Bytes.rev s) = s.
Proof.
  induction s as [|c s IH]; [reflexivity|].
  now rewrite bytes_rev_cons, bytes_rev_app, IH.
Qed.

Lemma bytes_length_rev (s : string) :
  String.length (Bytes.rev s) = String.length s.
Proof.
  induction s as [|c s IH]; [reflexivity|].
  rewrite bytes_rev_cons, bytes_length_app, IH. simpl. lia.
Qed.

End BytesFacts.

(** ** UTF-8: what a decoded white-space rune says about the bytes *)

Ltac break_if :=
  match goal with
  | |- context [if ?c then _ else _] => destruct c eqn:?
  | H : context [if ?c then _ else _] |- _ => destruct c eqn:?
  end.

Section Utf8Facts.

Lemma IsSpace_RuneError : unicode.IsSpace utf8.RuneError = false.
Proof. reflexivity. Qed.

Lemma first_range (b : ascii) (n : nat) (lo hi : Z) :
  utf8.first b = utf8.sz n lo hi ->
  128 <= lo /\ hi <= 191 /\ (n = 2 \/ n = 3 \/ n = 4)%nat
  /\ 194 <= Bytes.val b.
Proof.
  unfold utf8.first. intros H.
  repeat break_if; inversion H; subst;
    repeat match goal with
           | E : (_ <? _) = false |- _ => apply Z.ltb_ge in E
           end; lia.
Qed.

Lemma first_as (b : ascii) :
  utf8.first b = utf8.as_ <-> Bytes.val b < 128.
Proof.
  unfold utf8.first. split.
  - intros H. repeat break_if; try discriminate. now apply Z.ltb_lt.
  - intros H. apply Z.ltb_lt in H. now rewrite H.
Qed.

Lemma RuneStart_spec (b : ascii) :
  utf8.RuneStart b = negb (utf8.cont b).
Proof. destruct b as [[] [] [] [] [] [] [] []]; reflexivity. Qed.

Lemma lead_RuneStart (b : ascii) (n : nat) (lo hi : Z) :
  utf8.first b = utf8.sz n lo hi -> utf8.RuneStart b = true.
Proof.
  intros H. apply first_range in H. rewrite RuneStart_spec.
  unfold utf8.cont, Bytes.between.
  destruct (Bytes.val b <=? 191) eqn:E; [|now rewrite andb_false_r].
  apply Z.leb_le in E. lia.
Qed.

Lemma second_cont (b0 b1 : ascii) (n : nat) (lo hi : Z) :
  utf8.first b0 = utf8.sz n lo hi ->
  Bytes.between lo b1 hi = true -> utf8.cont b1 = true.
Proof.
  intros H. apply first_range in H. unfold utf8.cont, Bytes.between.
  rewrite !andb_true_iff, !Z.leb_le. lia.
Qed.

Lemma cont_not_ascii (b : ascii) :
  utf8.cont b = true -> (Bytes.val b <? utf8.RuneSelf) = false.
Proof.
  unfold utf8.cont, Bytes.between, utf8.RuneSelf.
  rewrite andb_true_iff, !Z.leb_le, Z.ltb_ge. lia.
Qed.

End Utf8Facts.

Section DecodeFacts.

(** A rune that decodes to white space is a valid encoding: its bytes
    alone fix the result, whatever follows them. *)
Lemma decode_space_inv (s : string) (r : Z) (n : nat) :
  utf8.DecodeRuneInString s = (r, n) ->
  unicode.IsSpace r = true ->
  exists e rest,
    s = e ++ rest /\ String.length e = n /\ (1 <= n)%nat
    /\ forall y, utf8.DecodeRuneInString (e ++ y) = (r, n).
Proof.
  unfold utf8.DecodeRuneInString. intros H Hsp.
  assert (Herr : forall k, (utf8.RuneError, k) = (r, n) -> False).
  { intros k E. inversion E; subst. discriminate. }
  destruct s as [|b0 s]; [now apply Herr in H|].
  destruct (utf8.first b0) as [| |size lo hi] eqn:F; [|now apply Herr in H|].
  { inversion H; subst. exists (String b0 EmptyString), s.
    repeat split; auto. intros y. simpl. now rewrite F. }
  destruct s as [|b1 s]; [now apply Herr in H|].
  destruct (negb (Bytes.between lo b1 hi)) eqn:K1; [now apply Herr in H|].
  destruct (size <=? 2)%nat eqn:S2.
  { inversion H; subst. exists (String b0 (String b1 EmptyString)), s.
    repeat split; auto. intros y. simpl. now rewrite F, K1, S2. }
  destruct s as [|b2 s]; [now apply Herr in H|].
  destruct (negb (utf8.cont b2)) eqn:K2; [now apply Herr in H|].
  destruct (size <=? 3)%nat eqn:S3.
  { inversion H; subst.
    exists (String b0 (String b1 (String b2 EmptyString))), s.
    repeat split; auto. intros y. simpl. now rewrite F, K1, S2, K2, S3. }
  destruct s as [|b3 s]; [now apply Herr in H|].
  destruct (negb (utf8.cont b3)) eqn:K3; [now apply Herr in H|].
  inversion H; subst.
  exists (String b0 (String b1 (String b2 (String b3 EmptyString)))), s.
  repeat split; auto. intros y. simpl. now rewrite F, K1, S2, K2, S3, K3.
Qed.

Lemma decode_space_app (s x : string) (r : Z) (n : nat) :
  utf8.DecodeRuneInString s = (r, n) ->
  unicode.IsSpace r = true ->
  utf8.DecodeRuneInString (s ++ x) = (r, n).
Proof.
  intros H Hsp.
  destruct (decode_space_inv _ _ _ H Hsp) as (e & rest & -> & _ & _ & He).
  rewrite bytes_app_assoc. apply He.
Qed.

Lemma decode_space_take (s : string) (r : Z) (n : nat) :
  utf8.DecodeRuneInString s = (r, n) ->
  unicode.IsSpace r = true ->
  utf8.DecodeRuneInString (Bytes.take n s) = (r, String.length (Bytes.take n s))
  /\ String.length (Bytes.take n s) = n /\ (1 <= n)%nat.
Proof.
  intros H Hsp.
  destruct (decode_space_inv _ _ _ H Hsp) as (e & rest & -> & <- & Hn & He).
  rewrite bytes_take_app. repeat split; auto.
  rewrite <- (bytes_app_nil_r e) at 1. apply He.
Qed.

Lemma backTo_length (w : nat) (before : string) (k : nat) :
  utf8.backTo w before = Some k -> (k <= String.length before)%nat.
Proof.
  revert before k. induction w as [|w IH]; intros [|c rest] k; simpl;
    try discriminate.
  destruct (utf8.RuneStart c).
  - intros [= <-]. lia.
  - destruct (utf8.backTo w rest) as [j|] eqn:B; simpl; [|discriminate].
    intros [= <-]. specialize (IH rest j B). lia.
Qed.

(** The backward decoder finds a white-space rune only where the forward
    decoder reads one from the same bytes. *)
Lemma lastRev_space_inv (rs : string) (r : Z) (n : nat) :
  utf8.lastRev rs = (r, n) ->
  unicode.IsSpace r = true ->
  exists e rest,
    rs = Bytes.rev e ++ rest /\ String.length e = n /\ (1 <= n)%nat
    /\ utf8.DecodeRuneInString e = (r, String.length e).
Proof.
  unfold utf8.lastRev. intros H Hsp.
  assert (Herr : forall k, (utf8.RuneError, k) = (r, n) -> False).
  { intros k E. inversion E; subst. discriminate. }
  destruct rs as [|c before]; [now apply Herr in H|].
  destruct (Bytes.val c <? utf8.RuneSelf) eqn:A.
  { inversion H; subst. exists (String c EmptyString), before.
    repeat split; auto. simpl.
    apply Z.ltb_lt in A. apply first_as in A. now rewrite A. }
  destruct (utf8.backTo 3 before) as [k|] eqn:B; [|now apply Herr in H].
  destruct (utf8.DecodeRuneInString
              (Bytes.rev (Bytes.take (S k) (String c before))))
    as [r' size'] eqn:D.
  destruct (size' =? S k)%nat eqn:E; [|now apply Herr in H].
  inversion H; subst r' size'. apply Nat.eqb_eq in E. subst n.
  apply backTo_length in B.
  assert (L : String.length (Bytes.take (S k) (String c before)) = S k).
  { apply bytes_length_take. simpl. lia. }
  exists (Bytes.rev (Bytes.take (S k) (String c before))),
         (Bytes.drop (S k) (String c before)).
  rewrite bytes_rev_rev, bytes_take_drop, bytes_length_rev, L.
  repeat split; auto. lia.
Qed.

(** Conversely, a white-space rune at the end of a string is what the
    backward decoder finds. *)
Lemma lastRev_space (e rs : string) (r : Z) :
  utf8.DecodeRuneInString e = (r, String.length e) ->
  unicode.IsSpace r = true ->
  utf8.lastRev (Bytes.rev e ++ rs) = (r, String.length e).
Proof.
  intros H Hsp. pose proof H as H0. revert H.
  unfold utf8.DecodeRuneInString at 1. intros H.
  assert (Herr : forall k, (utf8.RuneError, k) = (r, String.length e) -> False).
  { intros k E. inversion E; subst. discriminate. }
  destruct e as [|b0 e]; [now apply Herr in H|].
  destruct (utf8.first b0) as [| |size lo hi] eqn:F; [|now apply Herr in H|].
  { injection H as Hr Hl. destruct e; [|discriminate]. simpl.
    apply first_as in F. apply Z.ltb_lt in F. unfold utf8.RuneSelf.
    now rewrite F, Hr. }
  pose proof (lead_RuneStart _ _ _ _ F) as R0.
  destruct e as [|b1 e]; [now apply Herr in H|].
  destruct (negb (Bytes.between lo b1 hi)) eqn:K1; [now apply Herr in H|].
  apply negb_false_iff in K1. pose proof (second_cont _ _ _ _ _ F K1) as J1.
  destruct (size <=? 2)%nat eqn:S2.
  { injection H as Hr Hl. destruct e; [|discriminate].
    cbn -[utf8.DecodeRuneInString].
    rewrite (cont_not_ascii _ J1), R0. cbn -[utf8.DecodeRuneInString].
    now rewrite H0. }
  destruct e as [|b2 e]; [now apply Herr in H|].
  destruct (negb (utf8.cont b2)) eqn:K2; [now apply Herr in H|].
  apply negb_false_iff in K2.
  destruct (size <=? 3)%nat eqn:S3.
  { injection H as Hr Hl. destruct e; [|discriminate].
    cbn -[utf8.DecodeRuneInString].
    rewrite (cont_not_ascii _ K2), (RuneStart_spec b1), J1, R0.
    cbn -[utf8.DecodeRuneInString]. now rewrite H0. }
  destruct e as [|b3 e]; [now apply Herr in H|].
  destruct (negb (utf8.cont b3)) eqn:K3; [now apply Herr in H|].
  apply negb_false_iff in K3.
  injection H as Hr Hl. destruct e; [|discriminate].
  cbn -[utf8.DecodeRuneInString].
  rewrite (cont_not_ascii _ K3), (RuneStart_spec b2), K2,
    (RuneStart_spec b1), J1, R0.
  cbn -[utf8.DecodeRuneInString]. now rewrite H0.
Qed.

End DecodeFacts.

(** ** [strings.TrimSpace] *)

Section TrimFacts.

Lemma TrimLeftFunc_cons (c : ascii) (t : string) (f : Z -> bool) :
  strings.TrimLeftFunc (String c t) f
  = let '(r, size) := utf8.DecodeRuneInString (String c t) in
    if f r then strings.TrimLeftFunc (Bytes.drop (size - 1) t) f
    else String c t.
Proof.
  simp TrimLeftFunc.
  destruct (utf8.DecodeRuneInString (String c t)) as [r size].
  cbn. destruct (f r); reflexivity.
Qed.

Lemma trimRightRev_cons (c : ascii) (t : string) (f : Z -> bool) :
  strings.trimRightRev (String c t) f
  = let '(r, size) := utf8.lastRev (String c t) in
    if f r then strings.trimRightRev (Bytes.drop (size - 1) t) f
    else String c t.
Proof.
  simp trimRightRev.
  destruct (utf8.lastRev (String c t)) as [r size].
  cbn. destruct (f r); reflexivity.
Qed.

Lemma Blank_one (e : string) (r : Z) :
  utf8.DecodeRuneInString e = (r, String.length e) ->
  unicode.IsSpace r = true -> Blank e.
Proof.
  intros H Hsp. rewrite <- (bytes_app_nil_r e).
  eapply Blank_rune; eauto. constructor.
Qed.

Lemma Blank_app (a b : string) : Blank a -> Blank b -> Blank (a ++ b).
Proof.
  induction 1 as [|e s r He Hr _ IH]; intros Hb; simpl; [exact Hb|].
  rewrite bytes_app_assoc. eapply Blank_rune; eauto.
Qed.

(** Trimming on the left takes a run of white space off the front and
    stops at a rune that is not white space. *)
Lemma TrimLeft_split (s : string) :
  exists pre,
    s = pre ++ strings.TrimLeftFunc s unicode.IsSpace
    /\ Blank pre
    /\ unicode.IsSpace
         (fst (utf8.DecodeRuneInString
                 (strings.TrimLeftFunc s unicode.IsSpace))) = false.
Proof.
  remember (String.length s) as n eqn:Hn. revert s Hn.
  induction n as [n IH] using lt_wf_ind. intros [|c t] Hn.
  - exists EmptyString. simp TrimLeftFunc. repeat split. constructor.
  - rewrite TrimLeftFunc_cons.
    destruct (utf8.DecodeRuneInString (String c t)) as [r size] eqn:D.
    destruct (unicode.IsSpace r) eqn:Hsp.
    + destruct (decode_space_take _ _ _ D Hsp) as (De & Le & Hpos).
      pose proof (Bytes.length_drop_le (size - 1) t) as Hle.
      destruct (IH (String.length (Bytes.drop (size - 1) t))
                   ltac:(simpl in Hn; lia) _ eq_refl)
        as (pre & Hs & Hb & He).
      exists (Bytes.take size (String c t) ++ pre). split; [|split].
      * rewrite bytes_app_assoc, <- Hs.
        replace (Bytes.drop (size - 1) t)
          with (Bytes.drop size (String c t))
          by (destruct size; [lia | simpl; now rewrite Nat.sub_0_r]).
        now rewrite bytes_take_drop.
      * apply Blank_app; [|exact Hb]. eapply Blank_one; eauto.
      * exact He.
    + exists EmptyString. repeat split; [constructor|].
      now rewrite D.
Qed.

(** Trimming on the right takes a run of white space off the end and
    stops at a rune that is not white space. *)
Lemma trimRightRev_split (rs : string) :
  exists post,
    Bytes.rev rs
    = Bytes.rev (strings.trimRightRev rs unicode.IsSpace) ++ post
    /\ Blank post
    /\ unicode.IsSpace
         (fst (utf8.lastRev (strings.trimRightRev rs unicode.IsSpace)))
       = false.
Proof.
  remember (String.length rs) as n eqn:Hn. revert rs Hn.
  induction n as [n IH] using lt_wf_ind. intros [|c t] Hn.
  - exists EmptyString. simp trimRightRev. repeat split. constructor.
  - rewrite trimRightRev_cons.
    destruct (utf8.lastRev (String c t)) as [r size] eqn:D.
    destruct (unicode.IsSpace r) eqn:Hsp.
    + destruct (lastRev_space_inv _ _ _ D Hsp)
        as (e & rest & Hrs & Le & Hpos & De).
      pose proof (Bytes.length_drop_le (size - 1) t) as Hle.
      destruct (IH (String.length (Bytes.drop (size - 1) t))
                   ltac:(simpl in Hn; lia) _ eq_refl)
        as (post & Hs & Hb & He).
      assert (Hd : Bytes.drop (size - 1) t = rest).
      { replace (Bytes.drop (size - 1) t)
          with (Bytes.drop size (String c t))
          by (destruct size; [lia | simpl; now rewrite Nat.sub_0_r]).
        rewrite Hrs, <- Le, <- bytes_length_rev. apply bytes_drop_app. }
      exists (post ++ e). split; [|split].
      * rewrite Hrs, bytes_rev_app, bytes_rev_rev, <- Hd, Hs.
        now rewrite bytes_app_assoc.
      * apply Blank_app; [exact Hb|]. eapply Blank_one; eauto.
      * exact He.
    + exists EmptyString. rewrite bytes_app_nil_r.
      repeat split; [constructor|]. now rewrite D.
Qed.

Lemma TrimRight_split (s : string) :
  exists post,
    s = strings.TrimRightFunc s unicode.IsSpace ++ post
    /\ Blank post
    /\ unicode.IsSpace
         (fst (utf8.DecodeLastRuneInString
                 (strings.TrimRightFunc s unicode.IsSpace))) = false.
Proof.
  destruct (trimRightRev_split (Bytes.rev s)) as (post & Hs & Hb & He).
  exists post. unfold strings.TrimRightFunc, utf8.DecodeLastRuneInString.
  rewrite bytes_rev_rev in *. auto.
Qed.

(** [TrimSpace] keeps one contiguous part of its argument; what it drops
    before and after is white space, and what it keeps neither begins nor
    ends with white space. *)
Lemma TrimSpace_split (s : string) :
  exists pre post,
    s = pre ++ strings.TrimSpace s ++ post
    /\ Blank pre /\ Blank post
    /\ unicode.IsSpace
         (fst (utf8.DecodeRuneInString (strings.TrimSpace s))) = false
    /\ unicode.IsSpace
         (fst (utf8.DecodeLastRuneInString (strings.TrimSpace s))) = false.
Proof.
  unfold strings.TrimSpace, strings.TrimFunc.
  destruct (TrimLeft_split s) as (pre & Hs & Hpre & Hl).
  destruct (TrimRight_split (strings.TrimLeftFunc s unicode.IsSpace))
    as (post & Ht & Hpost & Hr).
  exists pre, post. repeat split; auto.
  - now rewrite <- Ht.
  - destruct (unicode.IsSpace (fst (utf8.DecodeRuneInString
        (strings.TrimRightFunc (strings.TrimLeftFunc s unicode.IsSpace)
                               unicode.IsSpace)))) eqn:E; [|reflexivity].
    destruct (utf8.DecodeRuneInString
        (strings.TrimRightFunc (strings.TrimLeftFunc s unicode.IsSpace)
                               unicode.IsSpace)) as [r n] eqn:D.
    simpl in E. rewrite Ht in Hl.
    rewrite (decode_space_app _ post _ _ D E) in Hl. simpl in Hl.
    congruence.
Qed.

End TrimFacts.

Section TrimPrefix.

Lemma TrimLeft_plain (s : string) :
  unicode.IsSpace (fst (utf8.DecodeRuneInString s)) = false ->
  strings.TrimLeftFunc s unicode.IsSpace = s.
Proof.
  destruct s as [|c t]; [reflexivity|]. intros H.
  rewrite TrimLeftFunc_cons.
  destruct (utf8.DecodeRuneInString (String c t)) as [r size].
  simpl in H. now rewrite H.
Qed.

(** A colon cannot complete a rune: text that does not begin with white
    space still does not once a colon and more text follow it. *)
Lemma decode_before_colon (sev y : string) :
  unicode.IsSpace (fst (utf8.DecodeRuneInString sev)) = false ->
  unicode.IsSpace
    (fst (utf8.DecodeRuneInString (sev ++ String ":" y))) = false.
Proof.
  unfold utf8.DecodeRuneInString.
  destruct sev as [|b0 sev]; [reflexivity|]. simpl append; cbv beta iota.
  destruct (utf8.first b0) as [| |size lo hi] eqn:F; auto.
  destruct sev as [|b1 sev]; simpl append; cbv beta iota.
  { intros _. apply first_range in F.
    assert (E : Bytes.between lo ":" hi = false).
    { unfold Bytes.between. change (Bytes.val ":") with 58.
      apply andb_false_iff. left. apply Z.leb_gt. lia. }
    now rewrite E. }
  destruct (negb (Bytes.between lo b1 hi)); auto.
  destruct (size <=? 2)%nat; auto.
  destruct sev as [|b2 sev]; simpl append; cbv beta iota;
    [intros _; reflexivity|].
  destruct (negb (utf8.cont b2)); auto.
  destruct (size <=? 3)%nat; auto.
  destruct sev as [|b3 sev]; simpl append; cbv beta iota;
    [intros _; reflexivity | auto].
Qed.

Lemma trimRightRev_space (e rs : string) (r : Z) :
  utf8.DecodeRuneInString e = (r, String.length e) ->
  unicode.IsSpace r = true ->
  strings.trimRightRev (Bytes.rev e ++ rs) unicode.IsSpace
  = strings.trimRightRev rs unicode.IsSpace.
Proof.
  intros H Hsp.
  destruct (decode_space_inv _ _ _ H Hsp) as (_ & _ & _ & _ & Hpos & _).
  pose proof (bytes_drop_app (Bytes.rev e) rs) as Hd.
  rewrite bytes_length_rev in Hd.
  pose proof (lastRev_space e rs r H Hsp) as Hl.
  destruct (Bytes.rev e ++ rs) as [|c t] eqn:E.
  - destruct (String.length e); [lia | discriminate Hl].
  - rewrite trimRightRev_cons, Hl, Hsp.
    destruct (String.length e) as [|k]; [lia|].
    simpl in Hd. simpl. now rewrite Nat.sub_0_r, Hd.
Qed.

(** White space at the end of a string goes, whatever precedes it. *)
Lemma TrimRight_blank (b : string) :
  Blank b ->
  forall x, strings.TrimRightFunc (x ++ b) unicode.IsSpace
            = strings.TrimRightFunc x unicode.IsSpace.
Proof.
  induction 1 as [|e s r He Hr _ IH]; intros x.
  - now rewrite bytes_app_nil_r.
  - rewrite <- bytes_app_assoc, IH. unfold strings.TrimRightFunc.
    now rewrite bytes_rev_app, (trimRightRev_space e _ r He Hr).
Qed.

Lemma TrimRight_colon (x : string) :
  strings.TrimRightFunc (x ++ ":") unicode.IsSpace = x ++ ":".
Proof.
  unfold strings.TrimRightFunc. rewrite bytes_rev_app.
  change (Bytes.rev ":" ++ Bytes.rev x) with (String ":" (Bytes.rev x)).
  rewrite trimRightRev_cons.
  change (utf8.lastRev (String ":" (Bytes.rev x))) with (58, 1%nat).
  cbv beta iota. change (unicode.IsSpace 58) with false. cbv beta iota.
  now rewrite bytes_rev_cons, bytes_rev_rev.
Qed.

(** Text that [TrimSpace] empties is a run of white space. *)
Lemma TrimSpace_empty_Blank (s : string) :
  strings.TrimSpace s = EmptyString -> Blank s.
Proof.
  intros H. destruct (TrimSpace_split s) as (pre & post & Hs & Hpre & Hpost & _).
  rewrite H in Hs. rewrite Hs. now apply Blank_app.
Qed.

(** After the prefix, trimming a blank text eats the space of the prefix
    and stops at the colon. *)
Lemma TrimSpace_prefix_blank (sev text : string) :
  unicode.IsSpace (fst (utf8.DecodeRuneInString sev)) = false ->
  strings.TrimSpace text = EmptyString ->
  strings.TrimSpace (sev ++ ": " ++ text) = sev ++ ":".
Proof.
  intros Hsev Ht. apply TrimSpace_empty_Blank in Ht.
  unfold strings.TrimSpace, strings.TrimFunc.
  rewrite TrimLeft_plain by (apply (decode_before_colon sev _ Hsev)).
  change (sev ++ ": " ++ text) with (sev ++ ":" ++ (" " ++ text)).
  rewrite <- bytes_app_assoc, TrimRight_blank; [apply TrimRight_colon|].
  apply Blank_rune with (r := 32); [reflexivity | reflexivity | exact Ht].
Qed.

End TrimPrefix.

(** ** [fmt.Sprint] and [fmt.Sprintf] under a prefix of two strings *)

Section FmtFacts.

Lemma doPrint_argNum (a : list fmt.any) (n m : nat) (p : bool) :
  (0 < n)%nat -> (0 < m)%nat -> fmt.doPrint a n p = fmt.doPrint a m p.
Proof.
  revert n m p. induction a as [|arg rest IH]; intros n m p Hn Hm; simpl;
    [reflexivity|].
  rewrite (IH (S n) (S m)) by lia.
  destruct n; [lia|]. destruct m; [lia|]. reflexivity.
Qed.

Lemma doPrint_after_string (a : list fmt.any) (n : nat) :
  fmt.doPrint a (S n) true = fmt.doPrint a 0 false.
Proof.
  destruct a as [|arg rest]; simpl; [reflexivity|].
  rewrite andb_false_r. simpl.
  now rewrite (doPrint_argNum rest (S (S n)) 1) by lia.
Qed.

(** [Sprint] of two strings and then [v] is the two strings and then
    [Sprint] of [v]: no space is put after a string. *)
Lemma Sprint_two_strings (a b : string) (v : list fmt.any) :
  fmt.Sprint (fmt.VString a :: fmt.VString b :: v) = a ++ b ++ fmt.Sprint v.
Proof.
  unfold fmt.Sprint. simpl. now rewrite doPrint_after_string.
Qed.

Lemma Sprint_prefix (l : gcplog.Logger) (v : list fmt.any) :
  fmt.Sprint (gcplog.prefix l v)
  = gcplog.severity l ++ ": " ++ fmt.Sprint v.
Proof. apply Sprint_two_strings. Qed.

End FmtFacts.

Section SprintfFacts.

Variables a b : fmt.any.

(** Without explicit argument indexes, [doPrintf] walks the operands in
    order, so that two operands more at the front, already consumed,
    change nothing. *)
Lemma doPrintf_shift_from (format : string) :
  forall (afterPercent : bool) (v : list fmt.any) (n : nat),
    indexFreeFrom afterPercent format = true ->
    fmt.doPrintf (if afterPercent then fmt.Percent else fmt.Text) format
      (a :: b :: v) (S (S n)) false
    = fmt.doPrintf (if afterPercent then fmt.Percent else fmt.Text) format
        v n false.
Proof.
  induction format as [|c rest IH]; intros afterPercent v n Hfree.
  - destruct afterPercent; reflexivity.
  - destruct afterPercent; cbn [indexFreeFrom] in Hfree; cbn [fmt.doPrintf nth_error].
    + apply andb_true_iff in Hfree as [Hc Hrest].
      apply negb_true_iff in Hc.
      destruct (Ascii.eqb c "%"); [now rewrite (IH false)|].
      destruct (fmt.isVerb c).
      * destruct (nth_error v n); now rewrite (IH false).
      * now rewrite Hc.
    + destruct (Ascii.eqb c "%").
      * now apply (IH true).
      * now rewrite (IH false).
Qed.

Lemma doPrintf_shift (format : string) (v : list fmt.any) (n : nat) :
  indexFree format = true ->
  fmt.doPrintf fmt.Text format (a :: b :: v) (S (S n)) false
  = fmt.doPrintf fmt.Text format v n false.
Proof. apply (doPrintf_shift_from format false). Qed.

(** A bracket of the plain text, or behind [%%], is no index; the one
    behind the [%] of a verb is. *)
Lemma indexFree_brackets :
  indexFree "[%s] %v" = true
  /\ indexFree "100%%[1]" = true
  /\ indexFree "%[1]s" = false
  /\ indexFree "a[0]=%[2]d" = false.
Proof. repeat split. Qed.

End SprintfFacts.

Section SprintfPrefix.

Variable sp : string -> list fmt.any -> string.

(** On an index-free format of the modelled fragment, [Sprintf] of the
    prefixed format and operands is the prefix before [Sprintf] of the
    format and operands. *)
Lemma Sprintf_prefix (l : gcplog.Logger) (format : string)
      (v : list fmt.any) (text : string) :
  indexFree format = true ->
  fmt.doPrintf fmt.Text format v 0 false = Some text ->
  fmt.Sprintf sp ("%s%s" ++ format) (gcplog.prefix l v)
  = gcplog.severity l ++ ": " ++ fmt.Sprintf sp format v.
Proof.
  intros Hfree Ht. unfold fmt.Sprintf, gcplog.prefix. rewrite Ht.
  cbn -[fmt.doPrintf].
  change (fmt.doPrintf fmt.Text (String "%" (String "s" (String "%" (String "s" format)))) ?a 0 false) with
    (fmt.app2 (Some (gcplog.severity l))
       (fmt.app2 (Some ": ")
          (fmt.doPrintf fmt.Text format
             (fmt.VString (gcplog.severity l) :: fmt.VString ": " :: v)
             2 false))).
  rewrite doPrintf_shift by auto. rewrite Ht. reflexivity.
Qed.

End SprintfPrefix.

(** ** The process *)

Section ProcessFacts.

(** Nothing sequenced after a call that ends the process runs. *)
Lemma bind_exited {A B : Type} (m : process.Proc A) (k : A -> process.Proc B)
      (out out' : string) (status : Z) :
  m out = (process.Exited status, out') ->
  process.bind m k out = (process.Exited status, out').
Proof. unfold process.bind. now intros ->. Qed.

Lemma bind_returned {A B : Type} (m : process.Proc A) (k : A -> process.Proc B)
      (out out' : string) (x : A) :
  m out = (process.Returned x, out') ->
  process.bind m k out = k x out'.
Proof. unfold process.bind. now intros ->. Qed.

(** [output] returns, having written one record: the severity of the
    logger and the trimmed text, each escaped. *)
Lemma output_writes (l : gcplog.Logger) (s out : string) :
  gcplog.output l s out
  = (process.Returned tt,
     out ++ record (json.escape (gcplog.severity l))
                   (json.escape (strings.TrimSpace s))).
Proof.
  unfold gcplog.output, json.Marshal, gcplog.gcpLogMessage.fields, record,
    json.appendString, fmt.Print, process.write.
  cbn [List.map json.commaSep fst snd gcplog.gcpLogMessage.Severity
       gcplog.gcpLogMessage.Message].
  now rewrite !bytes_app_assoc.
Qed.

End ProcessFacts.

(** ** [encoding/json]: the escaped text *)

Section JsonFacts.

Lemma escape_cons (b : ascii) (t : string) :
  json.escape (String b t)
  = if Bytes.val b <? utf8.RuneSelf then
      (if json.htmlSafe b then String b EmptyString else json.escapeByte b)
      ++ json.escape t
    else
      let '(c, size) := utf8.DecodeRuneInString (String b t) in
      if (c =? utf8.RuneError) && (size =? 1)%nat then
        json.replacement ++ json.escape t
      else if (c =? 8232) || (c =? 8233) then
        "\u202" ++ String (json.hexAt (Z.land c 15))
                     (json.escape (Bytes.drop (size - 1) t))
      else
        Bytes.take size (String b t)
        ++ json.escape (Bytes.drop (size - 1) t).
Proof.
  simp escape. destruct (Bytes.val b <? utf8.RuneSelf); cbn; [reflexivity|].
  destruct (utf8.DecodeRuneInString (String b t)) as [c size].
  reflexivity.
Qed.

Lemma all_app (p : ascii -> bool) (a b : string) :
  Bytes.all p (a ++ b) = Bytes.all p a && Bytes.all p b.
Proof.
  induction a as [|x a IH]; simpl; [reflexivity|].
  now rewrite IH, andb_assoc.
Qed.

Lemma hexAt_printable (n : Z) : (32 <=? Bytes.val (json.hexAt n)) = true.
Proof.
  unfold json.hexAt. generalize (Z.to_nat n). intros k.
  do 16 (destruct k as [|k]; [reflexivity|]). reflexivity.
Qed.

Lemma escapeByte_oneLine (b : ascii) : oneLine (json.escapeByte b) = true.
Proof.
  unfold json.escapeByte.
  destruct (Ascii.eqb b "\" || Ascii.eqb b json.dq) eqn:E.
  - apply orb_true_iff in E as [E|E]; apply Ascii.eqb_eq in E; subst;
      reflexivity.
  - repeat break_if; try reflexivity.
    unfold oneLine. rewrite all_app. simpl.
    now rewrite !hexAt_printable.
Qed.

(** The bytes of a rune that is not ASCII are all 128 or more, unless the
    decoder gave up on the first byte. *)
Lemma decode_bytes_high (b : ascii) (t : string) (c : Z) (size : nat) :
  (Bytes.val b <? utf8.RuneSelf) = false ->
  utf8.DecodeRuneInString (String b t) = (c, size) ->
  (c =? utf8.RuneError) && (size =? 1)%nat = false ->
  Bytes.all (fun x => 128 <=? Bytes.val x) (Bytes.take size (String b t))
  = true.
Proof.
  intros Hb H Hok. unfold utf8.RuneSelf in Hb. apply Z.ltb_ge in Hb.
  assert (Herr : (utf8.RuneError, 1%nat) = (c, size) -> False).
  { intros E. inversion E; subst. discriminate. }
  assert (Hc : forall x, utf8.cont x = true -> (128 <=? Bytes.val x) = true).
  { intros x. unfold utf8.cont, Bytes.between.
    now intros [? _]%andb_true_iff. }
  assert (Hb' : (128 <=? Bytes.val b) = true) by now apply Z.leb_le.
  revert H. unfold utf8.DecodeRuneInString.
  destruct (utf8.first b) as [| |n lo hi] eqn:F.
  { apply first_as in F. lia. }
  { intros H. now apply Herr in H. }
  destruct t as [|b1 t]; [intros H; now apply Herr in H|].
  destruct (negb (Bytes.between lo b1 hi)) eqn:K1;
    [intros H; now apply Herr in H|].
  apply negb_false_iff in K1.
  pose proof (Hc _ (second_cont _ _ _ _ _ F K1)) as J1.
  destruct (n <=? 2)%nat.
  { intros [= <- <-]. simpl. now rewrite Hb', J1. }
  destruct t as [|b2 t]; [intros H; now apply Herr in H|].
  destruct (negb (utf8.cont b2)) eqn:K2; [intros H; now apply Herr in H|].
  apply negb_false_iff in K2. apply Hc in K2.
  destruct (n <=? 3)%nat.
  { intros [= <- <-]. simpl. now rewrite Hb', J1, K2. }
  destruct t as [|b3 t]; [intros H; now apply Herr in H|].
  destruct (negb (utf8.cont b3)) eqn:K3; [intros H; now apply Herr in H|].
  apply negb_false_iff in K3. apply Hc in K3.
  intros [= <- <-]. simpl. now rewrite Hb', J1, K2, K3.
Qed.

Lemma all_weaken (p q : ascii -> bool) (s : string) :
  (forall c, p c = true -> q c = true) ->
  Bytes.all p s = true -> Bytes.all q s = true.
Proof.
  intros Hpq. induction s as [|c s IH]; simpl; [reflexivity|].
  intros [Hc Hs]%andb_true_iff. now rewrite (Hpq _ Hc), IH.
Qed.

(** The escaped text has no control byte. *)
Lemma escape_oneLine (s : string) : oneLine (json.escape s) = true.
Proof.
  remember (String.length s) as n eqn:Hn. revert s Hn.
  induction n as [n IH] using lt_wf_ind. intros [|b t] Hn.
  - reflexivity.
  - assert (IHt : forall k, oneLine (json.escape (Bytes.drop k t)) = true).
    { intros k. pose proof (Bytes.length_drop_le k t).
      apply (IH (String.length (Bytes.drop k t))); [simpl in Hn; lia | auto]. }
    pose proof (IHt O) as IH0. simpl in IH0.
    rewrite escape_cons. unfold oneLine in *.
    destruct (Bytes.val b <? utf8.RuneSelf) eqn:A.
    + rewrite all_app, IH0, andb_true_r.
      destruct (json.htmlSafe b) eqn:Hs; [|apply escapeByte_oneLine].
      simpl. rewrite andb_true_r. unfold json.htmlSafe, Bytes.between in Hs.
      now apply andb_true_iff in Hs as [[? _]%andb_true_iff _].
    + destruct (utf8.DecodeRuneInString (String b t)) as [c size] eqn:D.
      destruct ((c =? utf8.RuneError) && (size =? 1)%nat) eqn:E.
      * now rewrite all_app, IH0.
      * destruct ((c =? 8232) || (c =? 8233)).
        { rewrite all_app. cbn [Bytes.all]. now rewrite hexAt_printable, IHt. }
        rewrite all_app, IHt, andb_true_r.
        apply all_weaken with (2 := decode_bytes_high _ _ _ _ A D E).
        intros x Hx. apply Z.leb_le in Hx. apply Z.leb_le. lia.
Qed.

(** Bytes of [htmlSafeSet] are written as they are. *)
Lemma escape_plain (s : string) :
  Bytes.all json.htmlSafe s = true -> json.escape s = s.
Proof.
  induction s as [|b t IH]; [reflexivity|]. simpl.
  intros [Hb Ht]%andb_true_iff. rewrite escape_cons.
  assert (A : (Bytes.val b <? utf8.RuneSelf) = true).
  { unfold json.htmlSafe, Bytes.between in Hb.
    apply andb_true_iff in Hb as [[_ H]%andb_true_iff _].
    apply Z.leb_le in H. apply Z.ltb_lt. unfold utf8.RuneSelf. lia. }
  now rewrite A, Hb, IH.
Qed.

Lemma record_oneLine (sev msg : string) :
  oneLine sev = true -> oneLine msg = true ->
  oneLine (record sev msg) = true.
Proof.
  unfold oneLine, record, json.quoted. intros Hs Hm.
  repeat (rewrite all_app || cbn [Bytes.all append]).
  now rewrite Hs, Hm.
Qed.

End JsonFacts.

(** ** [encoding/json]: a reader gets the message back *)

Section JsonReader.

Lemma zrange_forallb (P : Z -> bool) (lo : Z) (n : nat) :
  forallb P (zrange lo n) = true ->
  forall v, lo <= v < lo + Z.of_nat n -> P v = true.
Proof.
  intros H v Hv. rewrite forallb_forall in H. apply H.
  unfold zrange. apply in_map_iff. exists (Z.to_nat (v - lo)).
  split; [lia|]. apply in_seq. lia.
Qed.

Lemma first_cases (b : ascii) (n : nat) (lo hi : Z) :
  utf8.first b = utf8.sz n lo hi ->
  (n = 2%nat /\ 194 <= Bytes.val b < 224)
  \/ (n = 3%nat /\ 224 <= Bytes.val b < 240)
  \/ (n = 4%nat /\ 240 <= Bytes.val b < 245
      /\ (Bytes.val b = 240 -> 144 <= lo)).
Proof.
  unfold utf8.first. intros H.
  repeat break_if; inversion H; subst;
    repeat match goal with
           | E : (_ <? _) = false |- _ => apply Z.ltb_ge in E
           | E : (_ <? _) = true |- _ => apply Z.ltb_lt in E
           | E : (_ =? _) = false |- _ => apply Z.eqb_neq in E
           | E : (_ =? _) = true |- _ => apply Z.eqb_eq in E
           end; lia.
Qed.

Lemma val_byte (b : ascii) (v : Z) : Bytes.val b = v -> b = rfc8259.byte v.
Proof.
  intros <-. unfold rfc8259.byte, Bytes.val.
  now rewrite N2Z.id, ascii_N_embedding.
Qed.

(** No rune of two bytes is U+2028 or U+2029. *)
Lemma rune2_not_sep (v0 v1 : Z) :
  194 <= v0 < 224 -> 128 <= v1 < 192 ->
  (Z.lor (Z.shiftl (Z.land v0 31) 6) (Z.land v1 63) =? 8232)
  || (Z.lor (Z.shiftl (Z.land v0 31) 6) (Z.land v1 63) =? 8233) = false.
Proof.
  intros H0 H1.
  assert (H : forallb (fun v0 => forallb (fun v1 =>
              negb ((Z.lor (Z.shiftl (Z.land v0 31) 6) (Z.land v1 63) =? 8232)
                    || (Z.lor (Z.shiftl (Z.land v0 31) 6) (Z.land v1 63)
                        =? 8233)))
            (zrange 128 64)) (zrange 194 30) = true)
    by (vm_compute; reflexivity).
  apply (zrange_forallb _ _ _ H) in H0.
  apply (zrange_forallb _ _ _ H0) in H1.
  now apply negb_true_iff in H1.
Qed.

(** Of the runes of three bytes, U+2028 and U+2029 have one encoding. *)
Lemma rune3_sep (v0 v1 v2 : Z) :
  224 <= v0 < 240 -> 128 <= v1 < 192 -> 128 <= v2 < 192 ->
  (Z.lor (Z.lor (Z.shiftl (Z.land v0 15) 12) (Z.shiftl (Z.land v1 63) 6))
         (Z.land v2 63) =? 8232)
  || (Z.lor (Z.lor (Z.shiftl (Z.land v0 15) 12) (Z.shiftl (Z.land v1 63) 6))
            (Z.land v2 63) =? 8233) = true ->
  v0 = 226 /\ v1 = 128
  /\ v2 = Z.lor (Z.lor (Z.shiftl (Z.land v0 15) 12)
                       (Z.shiftl (Z.land v1 63) 6))
                (Z.land v2 63) - 8064.
Proof.
  intros H0 H1 H2 E.
  assert (H : forallb (fun v0 => forallb (fun v1 => forallb (fun v2 =>
              let r := Z.lor (Z.lor (Z.shiftl (Z.land v0 15) 12)
                                    (Z.shiftl (Z.land v1 63) 6))
                             (Z.land v2 63) in
              implb ((r =? 8232) || (r =? 8233))
                    ((v0 =? 226) && (v1 =? 128) && (v2 =? r - 8064)))
            (zrange 128 64)) (zrange 128 64)) (zrange 224 16) = true)
    by (vm_compute; reflexivity).
  apply (zrange_forallb _ _ _ H) in H0.
  apply (zrange_forallb _ _ _ H0) in H1.
  apply (zrange_forallb _ _ _ H1) in H2.
  cbv zeta in H2. rewrite E in H2. simpl in H2.
  apply andb_true_iff in H2 as [[A B]%andb_true_iff C].
  apply Z.eqb_eq in A, B, C. auto.
Qed.

(** A rune of four bytes has a bit set above the basic plane. *)
Lemma rune4_high_bit (v0 v1 : Z) :
  240 <= v0 < 245 -> 128 <= v1 < 192 -> (v0 = 240 -> 144 <= v1) ->
  existsb (Z.testbit (Z.lor (Z.shiftl (Z.land v0 7) 18)
                            (Z.shiftl (Z.land v1 63) 12)))
          [16; 17; 18; 19; 20] = true.
Proof.
  intros H0 H1 Ha.
  assert (H : forallb (fun v0 => forallb (fun v1 =>
              implb (negb (v0 =? 240) || (144 <=? v1))
                (existsb (Z.testbit (Z.lor (Z.shiftl (Z.land v0 7) 18)
                                           (Z.shiftl (Z.land v1 63) 12)))
                         [16; 17; 18; 19; 20]))
            (zrange 128 64)) (zrange 240 5) = true)
    by (vm_compute; reflexivity).
  apply (zrange_forallb _ _ _ H) in H0.
  apply (zrange_forallb _ _ _ H0) in H1.
  assert (C : negb (v0 =? 240) || (144 <=? v1) = true).
  { destruct (Z.eqb_spec v0 240) as [->|]; [|reflexivity].
    simpl. apply Z.leb_le. auto. }
  now rewrite C in H1.
Qed.

Lemma rune4_not_sep (v0 v1 c d : Z) :
  240 <= v0 < 245 -> 128 <= v1 < 192 -> (v0 = 240 -> 144 <= v1) ->
  (Z.lor (Z.lor (Z.lor (Z.shiftl (Z.land v0 7) 18)
                       (Z.shiftl (Z.land v1 63) 12)) c) d =? 8232)
  || (Z.lor (Z.lor (Z.lor (Z.shiftl (Z.land v0 7) 18)
                          (Z.shiftl (Z.land v1 63) 12)) c) d =? 8233)
  = false.
Proof.
  intros H0 H1 Ha.
  pose proof (rune4_high_bit v0 v1 H0 H1 Ha) as Hb.
  apply existsb_exists in Hb as (i & Hi & Ht).
  set (r := Z.lor (Z.lor (Z.lor _ _) c) d).
  assert (T : Z.testbit r i = true).
  { unfold r. do 2 rewrite Z.lor_spec. now rewrite Ht. }
  destruct ((r =? 8232) || (r =? 8233)) eqn:E; [|reflexivity].
  apply orb_true_iff in E as [E|E]; apply Z.eqb_eq in E; rewrite E in T;
    simpl in Hi;
    repeat (destruct Hi as [<-|Hi]; [discriminate T|]); destruct Hi.
Qed.

Lemma between_bounds (lo hi : Z) (b : ascii) :
  Bytes.between lo b hi = true -> lo <= Bytes.val b <= hi.
Proof.
  unfold Bytes.between. now rewrite andb_true_iff, !Z.leb_le.
Qed.

(** Where the decoder reads U+2028 or U+2029, the bytes are the UTF-8
    encoding of that rune. *)
Lemma decode_sep_inv (b : ascii) (t : string) (c : Z) (size : nat) :
  utf8.DecodeRuneInString (String b t) = (c, size) ->
  (c =? 8232) || (c =? 8233) = true ->
  Bytes.take size (String b t) = rfc8259.utf8_of c.
Proof.
  intros H E.
  assert (Herr : forall k, (utf8.RuneError, k) = (c, size) -> False).
  { intros k X. inversion X; subst. discriminate. }
  revert H. unfold utf8.DecodeRuneInString.
  destruct (utf8.first b) as [| |n lo hi] eqn:F.
  { intros [<- <-]%pair_equal_spec. apply first_as in F. exfalso.
    apply orb_true_iff in E as [E|E]; apply Z.eqb_eq in E; lia. }
  { intros H. now apply Herr in H. }
  pose proof (first_range _ _ _ _ F) as (Hlo & Hhi & _ & _).
  pose proof (first_cases _ _ _ _ F) as Hn.
  destruct t as [|b1 t]; [intros H; now apply Herr in H|].
  destruct (negb (Bytes.between lo b1 hi)) eqn:K1;
    [intros H; now apply Herr in H|].
  apply negb_false_iff, between_bounds in K1.
  destruct (n <=? 2)%nat eqn:S2.
  { intros [<- <-]%pair_equal_spec. apply Nat.leb_le in S2. exfalso.
    rewrite rune2_not_sep in E; [discriminate | lia | lia]. }
  apply Nat.leb_gt in S2.
  destruct t as [|b2 t]; [intros H; now apply Herr in H|].
  destruct (negb (utf8.cont b2)) eqn:K2; [intros H; now apply Herr in H|].
  apply negb_false_iff, between_bounds in K2.
  destruct (n <=? 3)%nat eqn:S3.
  { intros [<- <-]%pair_equal_spec. apply Nat.leb_le in S3.
    destruct (rune3_sep (Bytes.val b) (Bytes.val b1) (Bytes.val b2))
      as (A0 & A1 & A2); [lia | lia | lia | exact E |].
    apply val_byte in A0, A1, A2. cbn [Bytes.take].
    rewrite A0 at 1. rewrite A1 at 1. rewrite A2 at 1.
    apply orb_true_iff in E as [E|E]; apply Z.eqb_eq in E; rewrite E;
      reflexivity. }
  apply Nat.leb_gt in S3.
  destruct t as [|b3 t]; [intros H; now apply Herr in H|].
  destruct (negb (utf8.cont b3)) eqn:K3; [intros H; now apply Herr in H|].
  intros [<- <-]%pair_equal_spec. exfalso.
  rewrite rune4_not_sep in E; [discriminate | lia | lia | lia].
Qed.

Lemma coerce_cons (b : ascii) (t : string) :
  coerce (String b t)
  = let '(c, size) := utf8.DecodeRuneInString (String b t) in
    if (c =? utf8.RuneError) && (size =? 1)%nat
    then rfc8259.utf8_of utf8.RuneError ++ coerce t
    else Bytes.take size (String b t) ++ coerce (Bytes.drop (size - 1) t).
Proof.
  simp coerce.
  destruct (utf8.DecodeRuneInString (String b t)) as [c size]. reflexivity.
Qed.

Lemma value_plain (c : ascii) (x : string) :
  Ascii.eqb c "\" = false -> Ascii.eqb c json.dq = false ->
  (Bytes.val c <? 32) = false ->
  rfc8259.value (String c x) = option_map (String c) (rfc8259.value x).
Proof.
  intros H1 H2 H3. cbn [rfc8259.value].
  change (Ascii.eqb c "034") with (Ascii.eqb c json.dq).
  now rewrite H1, H2, H3.
Qed.

Lemma value_high (e x : string) :
  Bytes.all (fun c => 128 <=? Bytes.val c) e = true ->
  rfc8259.value (e ++ x) = option_map (append e) (rfc8259.value x).
Proof.
  induction e as [|c e IH]; simpl Bytes.all; intros H.
  - simpl append. now destruct (rfc8259.value x).
  - apply andb_true_iff in H as [Hc He]. apply Z.leb_le in Hc.
    simpl append. rewrite value_plain, (IH He).
    + now destruct (rfc8259.value x).
    + apply Ascii.eqb_neq. intros ->. vm_compute in Hc. now apply Hc.
    + apply Ascii.eqb_neq. intros ->. vm_compute in Hc. now apply Hc.
    + apply Z.ltb_ge. lia.
Qed.

Lemma value_safe (b : ascii) (x : string) :
  json.htmlSafe b = true ->
  rfc8259.value (String b x) = option_map (String b) (rfc8259.value x).
Proof.
  unfold json.htmlSafe. intros [Hb Hn]%andb_true_iff.
  apply between_bounds in Hb. apply negb_true_iff in Hn.
  repeat (apply orb_false_iff in Hn as [Hn ?]).
  apply value_plain; auto. apply Z.ltb_ge. lia.
Qed.

Lemma value_escapeByte (b : ascii) (x : string) :
  (Bytes.val b <? utf8.RuneSelf) = true ->
  json.htmlSafe b = false ->
  rfc8259.value (json.escapeByte b ++ x)
  = option_map (String b) (rfc8259.value x).
Proof.
  destruct b as [[] [] [] [] [] [] [] []]; intros Ha Hs;
    try discriminate Ha; try discriminate Hs;
    cbn; now destruct (rfc8259.value x).
Qed.

Lemma value_replacement (x : string) :
  rfc8259.value (json.replacement ++ x)
  = option_map (append (rfc8259.utf8_of utf8.RuneError)) (rfc8259.value x).
Proof. cbn. now destruct (rfc8259.value x). Qed.

Lemma value_sep (c : Z) (x : string) :
  (c =? 8232) || (c =? 8233) = true ->
  rfc8259.value ("\u202" ++ String (json.hexAt (Z.land c 15)) x)
  = option_map (append (rfc8259.utf8_of c)) (rfc8259.value x).
Proof.
  intros E. apply orb_true_iff in E as [E|E]; apply Z.eqb_eq in E; subst;
    cbn; now destruct (rfc8259.value x).
Qed.

(** A reader of JSON gets from the escaped text the text itself, each
    byte that is not UTF-8 replaced by U+FFFD. *)
Lemma escape_value (s : string) :
  rfc8259.value (json.escape s) = Some (coerce s).
Proof.
  remember (String.length s) as n eqn:Hn. revert s Hn.
  induction n as [n IH] using lt_wf_ind. intros [|b t] Hn.
  - reflexivity.
  - assert (IHt : forall k, rfc8259.value (json.escape (Bytes.drop k t))
                            = Some (coerce (Bytes.drop k t))).
    { intros k. pose proof (Bytes.length_drop_le k t).
      apply (IH (String.length (Bytes.drop k t))); [simpl in Hn; lia | auto]. }
    pose proof (IHt O) as IH0. simpl in IH0.
    rewrite escape_cons, coerce_cons.
    destruct (Bytes.val b <? utf8.RuneSelf) eqn:A.
    + assert (D : utf8.DecodeRuneInString (String b t)
                  = (Bytes.val b, 1%nat)).
      { unfold utf8.DecodeRuneInString.
        pose proof A as A'. apply Z.ltb_lt, first_as in A'. now rewrite A'. }
      rewrite D.
      assert (N : (Bytes.val b =? utf8.RuneError) = false).
      { apply Z.eqb_neq. apply Z.ltb_lt in A.
        unfold utf8.RuneError, utf8.RuneSelf in *. lia. }
      rewrite N. cbn [andb Bytes.take Bytes.drop Nat.sub append].
      destruct (json.htmlSafe b) eqn:Hs.
      * cbn [append]. now rewrite value_safe, IH0.
      * now rewrite value_escapeByte, IH0.
    + destruct (utf8.DecodeRuneInString (String b t)) as [c size] eqn:D.
      destruct ((c =? utf8.RuneError) && (size =? 1)%nat) eqn:E.
      * now rewrite value_replacement, IH0.
      * destruct ((c =? 8232) || (c =? 8233)) eqn:S.
        { rewrite value_sep, IHt by exact S. cbn [option_map].
          now rewrite (decode_sep_inv _ _ _ _ D S). }
        rewrite value_high, IHt; [reflexivity|].
        apply (decode_bytes_high _ _ _ _ A D E).
Qed.

End JsonReader.

(** ** Severities: validation, construction, the setter *)

Section Severities.

Variable up : string -> string.

Local Abbreviation ToUpper := (strings.ToUpper up).
Local Abbreviation isValidSeverity := (gcplog.isValidSeverity up).
Local Abbreviation New := (gcplog.New up).
Local Abbreviation SetSeverity := (gcplog.SetSeverity up).

Lemma rangeEq_In (s : string) (sevs : list string) :
  gcplog.rangeEq s sevs = true <-> In s sevs.
Proof.
  induction sevs as [|sev rest IH]; simpl.
  - split; [discriminate | tauto].
  - destruct (String.eqb_spec s sev) as [->|Hne].
    + tauto.
    + rewrite IH. split; [tauto | intros [H|H]; congruence].
Qed.

Lemma among_In (s : string) (l : list string) : among s l = true <-> In s l.
Proof.
  unfold among. destruct (in_dec string_dec s l); split;
    auto; discriminate.
Qed.

Lemma isValidSeverity_In (s : string) :
  isValidSeverity s = true <-> In (ToUpper s) gcplog.severityAll.
Proof. unfold gcplog.isValidSeverity. apply rangeEq_In. Qed.

(** *** The ASCII branch of [ToUpper] *)

Lemma upperByte_not_lower (c : ascii) :
  Bytes.between 97 (strings.upperByte c) 122 = false.
Proof. destruct c as [[] [] [] [] [] [] [] []]; reflexivity. Qed.

Lemma upperByte_ascii (c : ascii) :
  (Bytes.val (strings.upperByte c) <? utf8.RuneSelf)
  = (Bytes.val c <? utf8.RuneSelf).
Proof. destruct c as [[] [] [] [] [] [] [] []]; reflexivity. Qed.

Lemma hasLower_upper (s : string) :
  strings.hasLower (Bytes.map strings.upperByte s) = false.
Proof.
  induction s as [|c s IH]; simpl; [reflexivity|].
  unfold strings.hasLower in *; simpl.
  now rewrite upperByte_not_lower, IH.
Qed.

Lemma isASCII_upper (s : string) :
  strings.isASCII (Bytes.map strings.upperByte s) = strings.isASCII s.
Proof.
  induction s as [|c s IH]; simpl; [reflexivity|].
  unfold strings.isASCII in *; simpl.
  now rewrite upperByte_ascii, IH.
Qed.

(** On ASCII strings, upper-casing twice is upper-casing once. *)
Lemma ToUpper_idem_ascii (s : string) :
  strings.isASCII s = true -> ToUpper (ToUpper s) = ToUpper s.
Proof.
  intros Ha. unfold strings.ToUpper. rewrite Ha.
  destruct (strings.hasLower s) eqn:Hl.
  - now rewrite isASCII_upper, Ha, hasLower_upper.
  - now rewrite Ha, Hl.
Qed.

(** The nine tokens are their own upper case. *)
Lemma ToUpper_severityAll (s : string) :
  In s gcplog.severityAll -> ToUpper s = s.
Proof.
  simpl. intros H.
  repeat (destruct H as [<-|H]; [reflexivity|]). destruct H.
Qed.

(** *** What is stored *)

(** Every logger of the public interface holds a severity that
    [isValidSeverity] accepts, that is, one of the nine tokens up to the
    case of its letters. *)
Lemma reachable_valid (l : gcplog.Logger) :
  reachable up l -> isValidSeverity (gcplog.severity l) = true.
Proof.
  induction 1 as [args|l s _ IH].
  - destruct args as [|s0 rest]; simpl; [reflexivity|].
    destruct (isValidSeverity s0) eqn:Hv; [exact Hv | reflexivity].
  - unfold gcplog.SetSeverity.
    destruct (isValidSeverity (ToUpper s)) eqn:Hv; [exact Hv | exact IH].
Qed.

(** [SetSeverity] keeps a logger among the nine tokens: the path of the
    setter stores upper case only. *)
Lemma SetSeverity_canonical (l : gcplog.Logger) (s : string) :
  ToUpper (ToUpper s) = ToUpper s ->
  In (gcplog.severity l) gcplog.severityAll ->
  In (gcplog.severity (SetSeverity l s)) gcplog.severityAll.
Proof.
  intros Hidem Hl. unfold gcplog.SetSeverity.
  destruct (isValidSeverity (ToUpper s)) eqn:Hv; [|exact Hl].
  apply isValidSeverity_In in Hv. now rewrite Hidem in Hv.
Qed.

(** *** No leading white space in a stored severity *)

Lemma space_upperByte (c : ascii) :
  unicode.IsSpace (Bytes.val c) = true -> strings.upperByte c = c.
Proof. destruct c as [[] [] [] [] [] [] [] []]; intros H; try reflexivity; discriminate H. Qed.

Lemma severityAll_first_byte (c : ascii) (t : string) :
  In (String c t) gcplog.severityAll -> unicode.IsSpace (Bytes.val c) = false.
Proof.
  simpl. intros H.
  repeat (destruct H as [H|H]; [injection H as <- _; reflexivity|]).
  destruct H.
Qed.

(** The severity of a logger of the public interface, when it is ASCII,
    does not begin with white space. *)
Lemma reachable_ascii_no_space (l : gcplog.Logger) :
  reachable up l ->
  strings.isASCII (gcplog.severity l) = true ->
  unicode.IsSpace
    (fst (utf8.DecodeRuneInString (gcplog.severity l))) = false.
Proof.
  intros Hr Ha. apply reachable_valid, isValidSeverity_In in Hr.
  unfold strings.ToUpper in Hr. rewrite Ha in Hr.
  destruct (gcplog.severity l) as [|c t]; [reflexivity|].
  unfold strings.isASCII in Ha. simpl in Ha.
  apply andb_true_iff in Ha as [Hc _].
  unfold utf8.DecodeRuneInString.
  apply Z.ltb_lt, first_as in Hc. rewrite Hc. simpl.
  destruct (unicode.IsSpace (Bytes.val c)) eqn:E; [|reflexivity].
  destruct (strings.hasLower (String c t)).
  - cbn [Bytes.map] in Hr. rewrite (space_upperByte c E) in Hr.
    now rewrite (severityAll_first_byte _ _ Hr) in E.
  - now rewrite (severityAll_first_byte _ _ Hr) in E.
Qed.

(** C7.  [isValidSeverity s] is [true] exactly when the upper-cased [s]
    is one of the nine tokens DEFAULT, INFO, NOTICE, WARNING, ERROR,
    CRITICAL, ALERT, EMERGENCY, DEBUG.  It is a function to [bool]: it
    yields a result on every string and touches no state. *)
Theorem isValidSeverity_nine (s : string) :
  isValidSeverity s = true <->
  In (ToUpper s)
     ["DEFAULT"; "INFO"; "NOTICE"; "WARNING"; "ERROR"; "CRITICAL";
      "ALERT"; "EMERGENCY"; "DEBUG"].
Proof. apply isValidSeverity_In. Qed.

(** C1, as amended.  [New(s, ...)] stores [s] when [s] is one of the nine
    tokens, and is the DEFAULT logger when the upper-cased [s] is none of
    them; [New()] is the DEFAULT logger, and so is [New("warn")], whose
    upper case WARN is not WARNING. *)
Theorem New_exact_or_invalid (s : string) (rest : list string)
  (Hs : In s gcplog.severityAll \/ ~ In (ToUpper s) gcplog.severityAll) :
  gcplog.severity (New (s :: rest))
    = (if among s gcplog.severityAll then s else "DEFAULT")
  /\ New [] = gcplog.defaultLogger
  /\ gcplog.severity (New ["warn"]) = "DEFAULT".
Proof.
  split; [|split; reflexivity].
  simpl. destruct Hs as [Hs|Hs].
  - assert (Hv : isValidSeverity s = true).
    { apply isValidSeverity_In. now rewrite ToUpper_severityAll. }
    rewrite Hv. apply among_In in Hs. now rewrite Hs.
  - destruct (isValidSeverity s) eqn:Hv.
    + apply isValidSeverity_In in Hv. contradiction.
    + destruct (among s gcplog.severityAll) eqn:Ha; [|reflexivity].
      apply among_In in Ha. rewrite <- (ToUpper_severityAll s Ha) in Ha.
      contradiction.
Qed.

(** C2, at the failing input.  [New("info")] validates the argument up to
    case and stores it as given: the logger holds "info", which is none of
    the nine tokens, where [SetSeverity("info")] stores "INFO". *)
Theorem New_stores_argument_as_given :
  gcplog.severity (New ["info"]) = "info"
  /\ ~ In "info" gcplog.severityAll
  /\ reachable up (New ["info"])
  /\ gcplog.severity (SetSeverity gcplog.defaultLogger "info") = "INFO".
Proof.
  repeat split; try reflexivity; [|constructor].
  simpl. intuition discriminate.
Qed.

(** C4.  After [SetSeverity(s)], [Severity()] is the upper-cased [s] when
    that is one of the nine tokens, and the severity held before
    otherwise; the call yields the logger and nothing else.  [Hidem]
    holds of every string in the runtime, and of every ASCII string by
    [ToUpper_idem_ascii]. *)
Theorem SetSeverity_Severity (l : gcplog.Logger) (s : string)
  (Hidem : ToUpper (ToUpper s) = ToUpper s) :
  gcplog.Severity (SetSeverity l s)
    = if among (ToUpper s) gcplog.severityAll
      then ToUpper s else gcplog.Severity l.
Proof.
  unfold gcplog.SetSeverity.
  destruct (isValidSeverity (ToUpper s)) eqn:Hv.
  - apply isValidSeverity_In in Hv. rewrite Hidem in Hv.
    apply among_In in Hv. now rewrite Hv.
  - destruct (among (ToUpper s) gcplog.severityAll) eqn:Ha; [|reflexivity].
    apply among_In in Ha.
    assert (isValidSeverity (ToUpper s) = true) as Hv'
      by (apply isValidSeverity_In; now rewrite Hidem).
    congruence.
Qed.

(** C9.  [New] looks at its first argument only: the arguments after it
    change nothing, also when the first is invalid and a later one is a
    token. *)
Theorem New_first_argument_only (s1 : string) (rest : list string) :
  New (s1 :: rest) = New [s1]
  /\ New ["bogus"; "ERROR"] = gcplog.defaultLogger.
Proof. split; reflexivity. Qed.

End Severities.

(** ** Emission: the entry points *)

Section Emission.

Variable up : string -> string.
Variable sp : string -> list fmt.any -> string.

Local Abbreviation New := (gcplog.New up).
Local Abbreviation Printf := (gcplog.Printf sp).
Local Abbreviation Fatalf := (gcplog.Fatalf sp).
Local Abbreviation PrefixPrintf := (gcplog.PrefixPrintf sp).
Local Abbreviation PrefixFatalf := (gcplog.PrefixFatalf sp).
Local Abbreviation Sprintf := (fmt.Sprintf sp).

Lemma output_emitted (l : gcplog.Logger) (s out : string) :
  gcplog.output l s out
  = (process.Returned tt, out ++ emitted (gcplog.severity l) s).
Proof. apply output_writes. Qed.

Lemma output_then_exit (l : gcplog.Logger) (s out : string) :
  (gcplog.output l s ;; os.Exit (A:=unit) 1) out
  = (process.Exited 1, out ++ emitted (gcplog.severity l) s).
Proof.
  rewrite (bind_returned _ _ _ _ _ (output_emitted l s out)). reflexivity.
Qed.

(** The plain entry points hand the formatted text to [output]; the
    [Prefix] entry points built on [Sprint] hand it over behind the
    severity, a colon and a space. *)
Lemma PrefixPrint_prepends (l : gcplog.Logger) (v : list fmt.any) :
  gcplog.PrefixPrint l v
  = gcplog.output l (gcplog.severity l ++ ": " ++ fmt.Sprint v)
  /\ gcplog.Print l v = gcplog.output l (fmt.Sprint v).
Proof.
  unfold gcplog.PrefixPrint, gcplog.Print. now rewrite Sprint_prefix.
Qed.

(** So does [PrefixPrintf] on a format of the modelled fragment that has
    no explicit argument index. *)
Lemma PrefixPrintf_prepends (l : gcplog.Logger) (format : string)
      (v : list fmt.any) (text : string) :
  indexFree format = true ->
  fmt.doPrintf fmt.Text format v 0 false = Some text ->
  PrefixPrintf l format v
  = gcplog.output l (gcplog.severity l ++ ": " ++ Sprintf format v).
Proof.
  intros Hfree Ht. unfold gcplog.PrefixPrintf.
  now rewrite (Sprintf_prefix sp l format v text Hfree Ht).
Qed.


(** C5, at the failing input.  With an explicit argument index in the
    format, [PrefixPrintf] does not write the prefix before the text that
    [Printf] writes: the two operands of the prefix are counted, so that
    [%[1]s] names the severity.  [Printf("%[1]s", "x")] writes the
    message x, [PrefixPrintf("%[1]s", "x")] the message DEFAULT: DEFAULT,
    not DEFAULT: x. *)
Theorem PrefixPrintf_explicit_index (out : string) :
  Printf (New []) "%[1]s" [fmt.VString "x"] out
  = (process.Returned tt, out ++ record "DEFAULT" "x")
  /\ PrefixPrintf (New []) "%[1]s" [fmt.VString "x"] out
     = (process.Returned tt, out ++ record "DEFAULT" "DEFAULT: DEFAULT")
  /\ gcplog.PrefixPrint (New []) [fmt.VString "Hello World"] out
     = (process.Returned tt, out ++ record "DEFAULT" "DEFAULT: Hello World").
Proof.
  unfold gcplog.Printf, gcplog.PrefixPrintf, gcplog.PrefixPrint.
  rewrite !output_writes.
  repeat split; do 2 f_equal; vm_compute; reflexivity.
Qed.

(** C6.  Each of [Fatal], [Fatalf], [PrefixFatal] and [PrefixFatalf]
    leaves on standard output what [Print], [Printf], [PrefixPrint] and
    [PrefixPrintf] leave there, and ends the process with status 1: it
    does not return, and nothing sequenced after it runs.  The four other
    entry points return. *)
Theorem Fatal_emits_then_exits (l : gcplog.Logger) (format : string)
        (v : list fmt.any) (out : string) :
  (gcplog.Fatal l v out = (process.Exited 1, snd (gcplog.Print l v out))
   /\ Fatalf l format v out
      = (process.Exited 1, snd (Printf l format v out))
   /\ gcplog.PrefixFatal l v out
      = (process.Exited 1, snd (gcplog.PrefixPrint l v out))
   /\ PrefixFatalf l format v out
      = (process.Exited 1, snd (PrefixPrintf l format v out)))
  /\ (fst (gcplog.Print l v out) = process.Returned tt
      /\ fst (Printf l format v out) = process.Returned tt
      /\ fst (gcplog.PrefixPrint l v out) = process.Returned tt
      /\ fst (PrefixPrintf l format v out) = process.Returned tt)
  /\ (forall k : process.Proc unit,
         (gcplog.Fatal l v ;; k) out = gcplog.Fatal l v out
         /\ (Fatalf l format v ;; k) out = Fatalf l format v out
         /\ (gcplog.PrefixFatal l v ;; k) out = gcplog.PrefixFatal l v out
         /\ (PrefixFatalf l format v ;; k) out = PrefixFatalf l format v out).
Proof.
  unfold gcplog.Fatal, gcplog.Fatalf, gcplog.PrefixFatal, gcplog.PrefixFatalf,
    gcplog.Print, gcplog.Printf, gcplog.PrefixPrint, gcplog.PrefixPrintf.
  split; [|split].
  - rewrite !output_then_exit, !output_emitted. repeat split.
  - rewrite !output_emitted. repeat split.
  - intros k. repeat split; apply bind_exited, output_then_exit.
Qed.

(** C8.  What an emission writes is a function of the severity held and
    of the text: two loggers of the same severity write the same bytes
    for the same text, whatever has been written before, and one after
    the other they write these bytes twice. *)
Theorem emission_deterministic (l1 l2 : gcplog.Logger) (text : string)
        (v : list fmt.any) (out1 out2 : string)
        (Hsev : gcplog.severity l1 = gcplog.severity l2) :
  gcplog.output l1 text out1
  = (process.Returned tt, out1 ++ emitted (gcplog.severity l1) text)
  /\ gcplog.output l2 text out2
     = (process.Returned tt, out2 ++ emitted (gcplog.severity l1) text)
  /\ (gcplog.output l1 text ;; gcplog.output l2 text) out1
     = (process.Returned tt,
        out1 ++ emitted (gcplog.severity l1) text
             ++ emitted (gcplog.severity l1) text)
  /\ snd (gcplog.Print l1 v EmptyString) = snd (gcplog.Print l2 v EmptyString)
  /\ snd (gcplog.PrefixPrint l1 v EmptyString)
     = snd (gcplog.PrefixPrint l2 v EmptyString).
Proof.
  destruct l1 as [sev1], l2 as [sev2]. simpl in Hsev. subst sev2.
  repeat split; try apply output_emitted.
  rewrite (bind_returned _ _ _ _ _ (output_emitted _ text out1)).
  rewrite output_emitted. now rewrite bytes_app_assoc.
Qed.

(** C10, at the failing input.  Trimming comes after the prefix, but
    with an explicit argument index in the format what stands behind the
    prefix is not the formatted text.  [Sprintf("%[1]s", " ")] is one
    space, white space only, and [Printf] writes the empty message for
    it; [PrefixPrintf("%[1]s", " ")] and [PrefixFatalf] write the message
    DEFAULT: DEFAULT, not DEFAULT and a bare colon.  [PrefixPrint(" ")]
    does write DEFAULT and a bare colon. *)
Theorem PrefixPrintf_blank_explicit_index (out : string) :
  (Sprintf "%[1]s" [fmt.VString " "] = " "
   /\ strings.TrimSpace (Sprintf "%[1]s" [fmt.VString " "]) = EmptyString
   /\ Printf (New []) "%[1]s" [fmt.VString " "] out
      = (process.Returned tt, out ++ record "DEFAULT" EmptyString))
  /\ PrefixPrintf (New []) "%[1]s" [fmt.VString " "] out
     = (process.Returned tt, out ++ record "DEFAULT" "DEFAULT: DEFAULT")
  /\ PrefixFatalf (New []) "%[1]s" [fmt.VString " "] out
     = (process.Exited 1, out ++ record "DEFAULT" "DEFAULT: DEFAULT")
  /\ gcplog.PrefixPrint (New []) [fmt.VString " "] out
     = (process.Returned tt, out ++ record "DEFAULT" "DEFAULT:").
Proof.
  unfold gcplog.Printf, gcplog.PrefixPrintf, gcplog.PrefixFatalf,
    gcplog.PrefixPrint.
  rewrite output_then_exit, !output_writes.
  repeat split; try (do 2 f_equal); vm_compute; reflexivity.
Qed.

End Emission.

(** ** The statements at concrete inputs *)

(** C1, as stated, fails at "warning": the string is none of the nine
    tokens, yet [New] does not fall back to DEFAULT. *)
Lemma New_lowercase_not_default :
  ~ In "warning" gcplog.severityAll
  /\ gcplog.severity (gcplog.New keepNonASCII ["warning"]) <> "DEFAULT".
Proof. split; [simpl; intuition discriminate | discriminate]. Qed.

Lemma New_exact_or_invalid_witness :
  (gcplog.severity (gcplog.New keepNonASCII ["ERROR"; "x"]) = "ERROR"
   /\ gcplog.New keepNonASCII [] = gcplog.defaultLogger
   /\ gcplog.severity (gcplog.New keepNonASCII ["warn"]) = "DEFAULT")
  /\ gcplog.severity (gcplog.New keepNonASCII ["Fatal"]) = "DEFAULT".
Proof.
  split.
  - apply (New_exact_or_invalid keepNonASCII "ERROR" ["x"]).
    left. simpl. tauto.
  - apply (New_exact_or_invalid keepNonASCII "Fatal" []).
    right. simpl. intuition discriminate.
Defined.

Lemma SetSeverity_Severity_witness :
  gcplog.Severity (gcplog.SetSeverity keepNonASCII gcplog.defaultLogger "critical")
    = "CRITICAL"
  /\ gcplog.Severity (gcplog.SetSeverity keepNonASCII gcplog.defaultLogger "warn")
    = "DEFAULT".
Proof.
  split.
  - apply (SetSeverity_Severity keepNonASCII gcplog.defaultLogger "critical").
    reflexivity.
  - apply (SetSeverity_Severity keepNonASCII gcplog.defaultLogger "warn").
    reflexivity.
Defined.

Lemma emission_deterministic_witness :
  snd (gcplog.Print (gcplog.New keepNonASCII ["ERROR"])
                    [fmt.VString "disk "; fmt.VInt 7] EmptyString)
  = snd (gcplog.Print
           (gcplog.SetSeverity keepNonASCII (gcplog.New keepNonASCII []) "error")
           [fmt.VString "disk "; fmt.VInt 7] EmptyString).
Proof.
  apply (emission_deterministic
           (gcplog.New keepNonASCII ["ERROR"])
           (gcplog.SetSeverity keepNonASCII (gcplog.New keepNonASCII []) "error")
           "disk 7" [fmt.VString "disk "; fmt.VInt 7] "a" "b").
  reflexivity.
Defined.

(* ===================================================================== *)
(** * Part III: more of the code *)
(* ===================================================================== *)

(** ** White space around the text *)

Section TrimMore.

Lemma TrimLeft_blank (p : string) :
  Blank p ->
  forall x, strings.TrimLeftFunc (p ++ x) unicode.IsSpace
            = strings.TrimLeftFunc x unicode.IsSpace.
Proof.
  induction 1 as [|e s r He Hr _ IH]; intros x; [reflexivity|].
  rewrite bytes_app_assoc.
  pose proof (decode_space_app e (s ++ x) r _ He Hr) as D.
  destruct (decode_space_inv _ _ _ He Hr) as (_ & _ & _ & _ & Hpos & _).
  pose proof (bytes_drop_app e (s ++ x)) as Hd.
  destruct (e ++ s ++ x) as [|c t] eqn:E.
  - destruct e; [simpl in Hpos; lia | discriminate E].
  - rewrite TrimLeftFunc_cons, D, Hr.
    destruct (String.length e) as [|k]; [lia|].
    simpl in Hd. simpl. rewrite Nat.sub_0_r, Hd. apply IH.
Qed.

Lemma Blank_TrimSpace (s : string) :
  Blank s -> strings.TrimSpace s = EmptyString.
Proof.
  intros H. unfold strings.TrimSpace, strings.TrimFunc.
  rewrite <- (bytes_app_nil_r s), (TrimLeft_blank s H). reflexivity.
Qed.

(** A white-space rune begins with a byte that can begin a rune. *)
Lemma space_first_byte (e : string) (r : Z) :
  utf8.DecodeRuneInString e = (r, String.length e) ->
  unicode.IsSpace r = true ->
  exists c e', e = String c e' /\ utf8.cont c = false.
Proof.
  intros H Hsp. destruct e as [|c e'].
  - inversion H; subst. discriminate.
  - exists c, e'. split; [reflexivity|].
    unfold utf8.DecodeRuneInString in H.
    unfold utf8.cont, Bytes.between.
    destruct (utf8.first c) as [| |n lo hi] eqn:F.
    + apply first_as in F. apply andb_false_iff. left. apply Z.leb_gt. lia.
    + inversion H; subst. discriminate.
    + apply first_range in F. apply andb_false_iff. right.
      apply Z.leb_gt. lia.
Qed.

Lemma Blank_starts (y : string) :
  Blank y ->
  y = EmptyString \/ exists c y', y = String c y' /\ utf8.cont c = false.
Proof.
  destruct 1 as [|e s r He Hr _]; [now left|]. right.
  destruct (space_first_byte e r He Hr) as (c & e' & -> & Hc).
  now exists c, (e' ++ s).
Qed.

(** Bytes that begin with the start of a rune cannot complete the rune
    before them: text that does not begin with white space still does not
    when they follow it. *)
Lemma decode_nonspace_app (t : string) (c : ascii) (y : string) :
  t <> EmptyString ->
  utf8.cont c = false ->
  unicode.IsSpace (fst (utf8.DecodeRuneInString t)) = false ->
  unicode.IsSpace
    (fst (utf8.DecodeRuneInString (t ++ String c y))) = false.
Proof.
  intros Ht Hc. unfold utf8.DecodeRuneInString.
  destruct t as [|b0 t]; [congruence|]. simpl append; cbv beta iota.
  destruct (utf8.first b0) as [| |size lo hi] eqn:F; auto.
  assert (E : Bytes.between lo c hi = false).
  { apply first_range in F. unfold utf8.cont, Bytes.between in *.
    apply andb_false_iff in Hc. apply andb_false_iff.
    destruct Hc as [Hc|Hc]; [left | right];
      apply Z.leb_gt in Hc; apply Z.leb_gt; lia. }
  destruct t as [|b1 t]; simpl append; cbv beta iota.
  { intros _. now rewrite E. }
  destruct (negb (Bytes.between lo b1 hi)); auto.
  destruct (size <=? 2)%nat; auto.
  destruct t as [|b2 t]; simpl append; cbv beta iota.
  { intros _. now rewrite Hc. }
  destruct (negb (utf8.cont b2)); auto.
  destruct (size <=? 3)%nat; auto.
  destruct t as [|b3 t]; simpl append; cbv beta iota;
    [intros _; now rewrite Hc | auto].
Qed.

Lemma TrimRight_empty :
  strings.TrimRightFunc EmptyString unicode.IsSpace = EmptyString.
Proof. reflexivity. Qed.

(** White space before and after a text does not change what [TrimSpace]
    keeps of it. *)
Lemma TrimSpace_ignores_blank (pre s post : string) :
  Blank pre -> Blank post ->
  strings.TrimSpace (pre ++ s ++ post) = strings.TrimSpace s.
Proof.
  intros Hpre Hpost. unfold strings.TrimSpace, strings.TrimFunc.
  rewrite (TrimLeft_blank pre Hpre).
  destruct (TrimLeft_split s) as (p & Hs & Hp & Hl).
  set (t := strings.TrimLeftFunc s unicode.IsSpace) in *.
  rewrite Hs at 1. rewrite bytes_app_assoc, (TrimLeft_blank p Hp).
  destruct t as [|c0 t0] eqn:Et.
  - simpl append.
    rewrite <- (bytes_app_nil_r post), (TrimLeft_blank post Hpost).
    reflexivity.
  - rewrite TrimLeft_plain; [apply (TrimRight_blank post Hpost)|].
    destruct (Blank_starts post Hpost) as [->|(c & y & -> & Hc)].
    + now rewrite bytes_app_nil_r.
    + apply decode_nonspace_app; auto. discriminate.
Qed.

End TrimMore.

Section TrimEnd.

Lemma ascii_RuneStart (c : ascii) :
  (Bytes.val c <? utf8.RuneSelf) = true -> utf8.RuneStart c = true.
Proof.
  intros H. rewrite RuneStart_spec. unfold utf8.cont, Bytes.between.
  unfold utf8.RuneSelf in H. apply Z.ltb_lt in H.
  apply negb_true_iff, andb_false_iff. left. apply Z.leb_gt. lia.
Qed.

Lemma decode_ascii (c : ascii) (t : string) :
  (Bytes.val c <? utf8.RuneSelf) = true ->
  utf8.DecodeRuneInString (String c t) = (Bytes.val c, 1%nat).
Proof.
  intros H. unfold utf8.DecodeRuneInString.
  apply Z.ltb_lt, first_as in H. now rewrite H.
Qed.

(** The backward decoder does not reach over an ASCII byte: the last
    rune of a text is the same with any bytes before it that end in
    one. *)
Lemma lastRev_before_ascii (u : string) (c : ascii) (rest : string) :
  u <> EmptyString ->
  (Bytes.val c <? utf8.RuneSelf) = true ->
  utf8.lastRev (u ++ String c rest) = utf8.lastRev u.
Proof.
  intros Hu Hc. pose proof (ascii_RuneStart c Hc) as Rc.
  destruct u as [|b1 u]; [congruence|]. simpl append. unfold utf8.lastRev.
  destruct (Bytes.val b1 <? utf8.RuneSelf); [reflexivity|].
  destruct u as [|b2 u]; simpl append.
  { cbn [utf8.backTo]. rewrite Rc.
    cbn [Bytes.take Bytes.rev Bytes.rev_onto].
    rewrite (decode_ascii c _ Hc). reflexivity. }
  cbn [utf8.backTo].
  destruct (utf8.RuneStart b2); [reflexivity|].
  destruct u as [|b3 u]; simpl append.
  { cbn [utf8.backTo option_map]. rewrite Rc.
    cbn [option_map Bytes.take Bytes.rev Bytes.rev_onto].
    rewrite (decode_ascii c _ Hc). reflexivity. }
  cbn [utf8.backTo].
  destruct (utf8.RuneStart b3); [reflexivity|].
  destruct u as [|b4 u]; simpl append.
  { cbn [utf8.backTo option_map]. rewrite Rc.
    cbn [option_map Bytes.take Bytes.rev Bytes.rev_onto].
    rewrite (decode_ascii c _ Hc). reflexivity. }
  cbn [utf8.backTo].
  destruct (utf8.RuneStart b4); reflexivity.
Qed.

Lemma TrimRight_plain (u : string) :
  unicode.IsSpace (fst (utf8.DecodeLastRuneInString u)) = false ->
  strings.TrimRightFunc u unicode.IsSpace = u.
Proof.
  unfold utf8.DecodeLastRuneInString, strings.TrimRightFunc. intros H.
  destruct (Bytes.rev u) as [|c t] eqn:E.
  - rewrite <- (bytes_rev_rev u), E. reflexivity.
  - rewrite trimRightRev_cons.
    destruct (utf8.lastRev (String c t)) as [r size]. simpl in H.
    now rewrite H, <- E, bytes_rev_rev.
Qed.

Lemma rev_nonempty (u : string) :
  u <> EmptyString -> Bytes.rev u <> EmptyString.
Proof.
  intros Hu E. apply Hu. now rewrite <- (bytes_rev_rev u), E.
Qed.

(** Behind the prefix, a text that is not blank keeps all but the white
    space at its end: the white space at its front now lies inside the
    message. *)
Lemma TrimSpace_prefix_text (sev text : string) :
  unicode.IsSpace (fst (utf8.DecodeRuneInString sev)) = false ->
  strings.TrimSpace text <> EmptyString ->
  strings.TrimSpace (sev ++ ": " ++ text)
  = sev ++ ": " ++ strings.TrimRightFunc text unicode.IsSpace.
Proof.
  intros Hsev Ht.
  destruct (TrimRight_split text) as (post & Htext & Hpost & Hlast).
  set (t' := strings.TrimRightFunc text unicode.IsSpace) in *.
  assert (Hne : t' <> EmptyString).
  { intros E. rewrite E in Htext. simpl in Htext. subst text.
    now apply Ht, Blank_TrimSpace. }
  unfold strings.TrimSpace, strings.TrimFunc.
  rewrite TrimLeft_plain by (apply (decode_before_colon sev _ Hsev)).
  rewrite Htext.
  replace (sev ++ ": " ++ t' ++ post) with ((sev ++ ": " ++ t') ++ post)
    by (now rewrite !bytes_app_assoc).
  rewrite (TrimRight_blank post Hpost). apply TrimRight_plain.
  unfold utf8.DecodeLastRuneInString in *.
  replace (sev ++ ": " ++ t') with ((sev ++ ":") ++ " " ++ t')
    by (now rewrite !bytes_app_assoc).
  rewrite bytes_rev_app, (bytes_rev_app " " t').
  rewrite bytes_app_assoc.
  change (Bytes.rev " " ++ Bytes.rev (sev ++ ":"))
    with (String " " (Bytes.rev (sev ++ ":"))).
  rewrite lastRev_before_ascii; auto using rev_nonempty.
Qed.

End TrimEnd.

(** ** Reading the lines back *)

Section LineFacts.

(** The closing quote ends a literal whose text a reader accepts. *)
Lemma literal_value (body v tl : string) :
  rfc8259.value body = Some v ->
  jsonline.literal (body ++ String json.dq tl) = Some (v, tl).
Proof.
  remember (String.length body) as n eqn:Hn. revert body v Hn.
  induction n as [n IH] using lt_wf_ind. intros body v Hn.
  destruct body as [|c rest].
  - intros [= <-]. reflexivity.
  - cbn [rfc8259.value append jsonline.literal].
    destruct (Ascii.eqb c "\") eqn:Eb.
    + apply Ascii.eqb_eq in Eb. subst c.
      change (Ascii.eqb "\" "034") with false. cbv iota.
      destruct rest as [|e rest']; [discriminate|]. cbn [append].
      destruct (Ascii.eqb e "u").
      * destruct rest' as [|h1 [|h2 [|h3 [|h4 rest'']]]]; try discriminate.
        cbn [append].
        destruct (rfc8259.codePoint h1 h2 h3 h4) as [r|]; [|discriminate].
        destruct (rfc8259.value rest'') as [w|] eqn:Ew; [|discriminate].
        intros [= <-].
        rewrite (IH (String.length rest'') ltac:(simpl in Hn; lia)
                    rest'' w eq_refl Ew).
        reflexivity.
      * destruct (rfc8259.simpleEscape e) as [x|]; [|discriminate].
        destruct (rfc8259.value rest') as [w|] eqn:Ew; [|discriminate].
        intros [= <-].
        rewrite (IH (String.length rest') ltac:(simpl in Hn; lia)
                    rest' w eq_refl Ew).
        reflexivity.
    + destruct (Ascii.eqb c "034") eqn:Eq; [discriminate|].
      cbn [orb].
      destruct (Bytes.val c <? 32); [discriminate|].
      destruct (rfc8259.value rest) as [w|] eqn:Ew; [|discriminate].
      intros [= <-].
      rewrite (IH (String.length rest) ltac:(simpl in Hn; lia)
                  rest w eq_refl Ew).
      reflexivity.
Qed.

Lemma quoted_app (a r : string) :
  json.quoted a ++ r = String json.dq (a ++ String json.dq r).
Proof. unfold json.quoted. simpl. now rewrite bytes_app_assoc. Qed.

Lemma member_quoted (k a va r : string) :
  rfc8259.value k = Some k ->
  rfc8259.value a = Some va ->
  jsonline.member (json.quoted k ++ String ":" (json.quoted a ++ r))
  = Some ((k, va), r).
Proof.
  intros Hk Ha. unfold jsonline.member.
  rewrite quoted_app. cbn [jsonline.expect].
  change (Ascii.eqb "034" json.dq) with true. cbv iota.
  rewrite (literal_value k k _ Hk).
  cbn [jsonline.expect]. rewrite quoted_app.
  change (Ascii.eqb ":" ":") with true. cbv iota.
  cbn [jsonline.expect].
  change (Ascii.eqb "034" json.dq) with true. cbv iota.
  now rewrite (literal_value a va _ Ha).
Qed.

(** A record is read as the object of its two members. *)
Lemma object2_record (a b va vb : string) :
  rfc8259.value a = Some va ->
  rfc8259.value b = Some vb ->
  jsonline.object2 (record a b)
  = Some (("severity", va), ("message", vb)).
Proof.
  intros Ha Hb. unfold jsonline.object2, record.
  cbn [append jsonline.expect].
  change (Ascii.eqb "{" "{") with true. cbv iota.
  rewrite (member_quoted "severity" a va _ eq_refl Ha).
  cbn [append jsonline.expect].
  change (Ascii.eqb "," ",") with true. cbv iota.
  rewrite (member_quoted "message" b vb _ eq_refl Hb).
  reflexivity.
Qed.

Lemma coerce_ascii (s : string) :
  strings.isASCII s = true -> coerce s = s.
Proof.
  unfold strings.isASCII.
  induction s as [|b t IH]; [reflexivity|]. simpl.
  intros [Hb Ht]%andb_true_iff.
  rewrite coerce_cons, (decode_ascii b t Hb).
  assert (N : (Bytes.val b =? utf8.RuneError) = false).
  { apply Z.eqb_neq. apply Z.ltb_lt in Hb.
    unfold utf8.RuneError, utf8.RuneSelf in *. lia. }
  rewrite N. cbn [andb Bytes.take Bytes.drop Nat.sub append].
  now rewrite (IH Ht).
Qed.

Lemma isASCII_app (a b : string) :
  strings.isASCII (a ++ b) = strings.isASCII a && strings.isASCII b.
Proof. apply all_app. Qed.

Lemma isASCII_TrimSpace (s : string) :
  strings.isASCII s = true -> strings.isASCII (strings.TrimSpace s) = true.
Proof.
  intros H. destruct (TrimSpace_split s) as (pre & post & Hs & _).
  rewrite Hs, !isASCII_app in H.
  now apply andb_true_iff in H as [_ [H _]%andb_true_iff].
Qed.

Lemma htmlSafe_upperByte (c : ascii) :
  json.htmlSafe (strings.upperByte c) = json.htmlSafe c.
Proof. destruct c as [[] [] [] [] [] [] [] []]; reflexivity. Qed.

Lemma all_htmlSafe_upper (s : string) :
  Bytes.all json.htmlSafe (Bytes.map strings.upperByte s)
  = Bytes.all json.htmlSafe s.
Proof.
  induction s as [|c s IH]; simpl; [reflexivity|].
  now rewrite htmlSafe_upperByte, IH.
Qed.

Lemma severityAll_plain (s : string) :
  In s gcplog.severityAll -> Bytes.all json.htmlSafe s = true.
Proof.
  simpl. intros H.
  repeat (destruct H as [<-|H]; [reflexivity|]). destruct H.
Qed.

End LineFacts.

Section PlainSeverity.

Variable up : string -> string.

(** An ASCII severity that [isValidSeverity] accepts is made of letters:
    its bytes go into the line as they are. *)
Lemma valid_ascii_plain (sev : string) :
  gcplog.isValidSeverity up sev = true ->
  strings.isASCII sev = true ->
  json.escape sev = sev /\ coerce sev = sev.
Proof.
  intros Hv Ha. split; [|now apply coerce_ascii].
  apply escape_plain. apply isValidSeverity_In in Hv.
  unfold strings.ToUpper in Hv. rewrite Ha in Hv.
  destruct (strings.hasLower sev).
  - rewrite <- all_htmlSafe_upper. now apply severityAll_plain.
  - now apply severityAll_plain.
Qed.

End PlainSeverity.

(** ** Construction and the setter, composed *)

Section Loggers.

Variable up : string -> string.

Local Abbreviation ToUpper := (strings.ToUpper up).
Local Abbreviation isValidSeverity := (gcplog.isValidSeverity up).
Local Abbreviation New := (gcplog.New up).
Local Abbreviation SetSeverity := (gcplog.SetSeverity up).

Lemma reachable_fold (ss : list string) (l : gcplog.Logger) :
  reachable up l -> reachable up (fold_left SetSeverity ss l).
Proof.
  revert l. induction ss as [|s ss IH]; intros l Hl; simpl; [exact Hl|].
  apply IH. now constructor.
Qed.

(** X1.  Whatever the arguments of [New] and whatever calls of
    [SetSeverity] follow, the severity held passes [isValidSeverity]: the
    silent fallbacks never leave a logger with a string that validation
    would refuse.  [New] itself yields the DEFAULT logger or one that
    holds its first argument. *)
Theorem public_loggers_valid (args ss : list string) :
  isValidSeverity
    (gcplog.severity (fold_left SetSeverity ss (New args))) = true
  /\ (New args = gcplog.defaultLogger
      \/ exists s rest,
           args = s :: rest /\ New args = {| gcplog.severity := s |}).
Proof.
  split.
  - apply reachable_valid, reachable_fold. constructor.
  - destruct args as [|s rest]; [now left|]. simpl.
    destruct (isValidSeverity s); [right | now left].
    now exists s, rest.
Qed.

(** X2.  [SetSeverity] is idempotent, and of two calls in a row the
    second decides alone when its argument is valid and changes nothing
    when it is not. *)
Theorem SetSeverity_twice (l : gcplog.Logger) (s1 s2 : string) :
  SetSeverity (SetSeverity l s1) s1 = SetSeverity l s1
  /\ SetSeverity (SetSeverity l s1) s2
     = (if isValidSeverity (ToUpper s2)
        then SetSeverity l s2 else SetSeverity l s1).
Proof.
  unfold gcplog.SetSeverity. split.
  - destruct (isValidSeverity (ToUpper s1)); reflexivity.
  - destruct (isValidSeverity (ToUpper s2)); reflexivity.
Qed.

(** X3.  Each of the twelve exported constants is one of the nine tokens
    of [severityAll], and both [New] and [SetSeverity] take it and store
    it as it is; WARN, ERR and CRIT are WARNING, ERROR and CRITICAL. *)
Theorem exported_constants_accepted (l : gcplog.Logger) :
  Forall (fun c => In c gcplog.severityAll
                   /\ New [c] = {| gcplog.severity := c |}
                   /\ SetSeverity l c = {| gcplog.severity := c |})
         exported
  /\ gcplog.WARN = gcplog.WARNING
  /\ gcplog.ERR = gcplog.ERROR
  /\ gcplog.CRIT = gcplog.CRITICAL.
Proof.
  split; [|repeat split].
  unfold exported.
  repeat (constructor;
          [split; [simpl; tauto | split; reflexivity]|]).
  constructor.
Qed.

(** X4.  On an ASCII string the setter accepts what the constructor
    accepts, whatever the case of the letters, and it stores one of the
    nine tokens: the upper case of what the constructor stores. *)
Theorem ascii_setter_matches_constructor (l : gcplog.Logger) (s : string)
        (Hascii : strings.isASCII s = true) :
  gcplog.severity (SetSeverity l s)
  = (if isValidSeverity s then ToUpper s else gcplog.severity l)
  /\ (isValidSeverity s = true ->
      In (gcplog.severity (SetSeverity l s)) gcplog.severityAll)
  /\ ToUpper (gcplog.severity (New [s]))
     = gcplog.severity (SetSeverity gcplog.defaultLogger s).
Proof.
  assert (Hg : isValidSeverity (ToUpper s) = isValidSeverity s).
  { unfold gcplog.isValidSeverity. now rewrite ToUpper_idem_ascii. }
  unfold gcplog.SetSeverity. rewrite Hg. simpl.
  destruct (isValidSeverity s) eqn:Hv.
  - repeat split. intros _. now apply isValidSeverity_In.
  - repeat split. discriminate.
Qed.

End Loggers.

(** ** What goes on the line *)

Section Lines.

Variable up : string -> string.
Variable sp : string -> list fmt.any -> string.

(** X5.  For a logger whose severity is ASCII and valid, and an ASCII
    text, the line written is read back as the object whose [severity] is
    the severity exactly as held and whose [message] is the text without
    the white space at its ends; the severity needs no escape. *)
Theorem ascii_line_read_back (l : gcplog.Logger) (text out : string)
        (Hvalid : gcplog.isValidSeverity up (gcplog.severity l) = true)
        (Hsev : strings.isASCII (gcplog.severity l) = true)
        (Htext : strings.isASCII text = true) :
  gcplog.output l text out
  = (process.Returned tt,
     out ++ record (gcplog.severity l)
                   (json.escape (strings.TrimSpace text)))
  /\ jsonline.object2
       (record (gcplog.severity l) (json.escape (strings.TrimSpace text)))
     = Some (("severity", gcplog.severity l),
             ("message", strings.TrimSpace text)).
Proof.
  destruct (valid_ascii_plain up _ Hvalid Hsev) as [He Hc].
  split.
  - rewrite output_writes. now rewrite He.
  - rewrite <- He at 1.
    rewrite (object2_record _ _ _ _ (escape_value _) (escape_value _)).
    now rewrite Hc, (coerce_ascii _ (isASCII_TrimSpace _ Htext)).
Qed.

(** X6.  White space around the text is not logged: the same bytes are
    written with and without it, and logging the trimmed text again
    writes them once more. *)
Theorem output_ignores_outer_space (l : gcplog.Logger)
        (pre text post out : string)
        (Hpre : strings.TrimSpace pre = EmptyString)
        (Hpost : strings.TrimSpace post = EmptyString) :
  gcplog.output l (pre ++ text ++ post) out = gcplog.output l text out
  /\ gcplog.output l (strings.TrimSpace text) out = gcplog.output l text out.
Proof.
  apply TrimSpace_empty_Blank in Hpre, Hpost.
  rewrite !output_writes. split.
  - now rewrite (TrimSpace_ignores_blank pre text post Hpre Hpost).
  - destruct (TrimSpace_split text) as (p & q & Hs & Hp & Hq & _).
    rewrite <- (TrimSpace_ignores_blank p (strings.TrimSpace text) q Hp Hq).
    now rewrite <- Hs.
Qed.

(** X7.  Behind the prefix a text that is not blank loses the white
    space at its end only: [PrefixPrint] and [PrefixFatal] write the
    severity, a colon, one space and the text from its first byte on,
    white space at its front included. *)
Theorem PrefixPrint_text_kept (l : gcplog.Logger) (v : list fmt.any)
        (out : string)
        (Hsev : unicode.IsSpace
                  (fst (utf8.DecodeRuneInString (gcplog.severity l))) = false)
        (Hv : (0 < String.length (strings.TrimSpace (fmt.Sprint v)))%nat) :
  gcplog.PrefixPrint l v out
  = (process.Returned tt,
     out ++ record (json.escape (gcplog.severity l))
              (json.escape
                 (gcplog.severity l ++ ": "
                  ++ strings.TrimRightFunc (fmt.Sprint v) unicode.IsSpace)))
  /\ gcplog.PrefixFatal l v out
     = (process.Exited 1,
        out ++ record (json.escape (gcplog.severity l))
                 (json.escape
                    (gcplog.severity l ++ ": "
                     ++ strings.TrimRightFunc (fmt.Sprint v) unicode.IsSpace))).
Proof.
  assert (Hne : strings.TrimSpace (fmt.Sprint v) <> EmptyString).
  { intros E. rewrite E in Hv. simpl in Hv. lia. }
  unfold gcplog.PrefixPrint, gcplog.PrefixFatal.
  rewrite Sprint_prefix.
  rewrite (bind_returned _ _ _ _ _ (output_writes l _ out)).
  rewrite output_writes, (TrimSpace_prefix_text _ _ Hsev Hne).
  split; reflexivity.
Qed.

(** X8.  [PrefixPrint(v...)] logs what [Print] logs for the string of
    severity, colon and space followed by the operands [v], and
    [PrefixFatal] what [Fatal] logs for them: nothing comes between the
    prefix and the first operand, whatever its type. *)
Theorem PrefixPrint_as_Print (l : gcplog.Logger) (v : list fmt.any) :
  gcplog.PrefixPrint l v
  = gcplog.Print l (fmt.VString (gcplog.severity l ++ ": ") :: v)
  /\ gcplog.PrefixFatal l v
     = gcplog.Fatal l (fmt.VString (gcplog.severity l ++ ": ") :: v)
  /\ fmt.Sprint (gcplog.prefix l v)
     = gcplog.severity l ++ ": " ++ fmt.Sprint v.
Proof.
  assert (E : fmt.Sprint (gcplog.prefix l v)
              = fmt.Sprint (fmt.VString (gcplog.severity l ++ ": ") :: v)).
  { rewrite Sprint_prefix. unfold fmt.Sprint. simpl.
    now rewrite doPrint_after_string, bytes_app_assoc. }
  unfold gcplog.PrefixPrint, gcplog.PrefixFatal, gcplog.Print, gcplog.Fatal.
  rewrite E. repeat split. rewrite <- E. apply Sprint_prefix.
Qed.

(** X9.  On a format without explicit argument index, made of plain
    bytes and the verbs [%v], [%s], [%d] and [%%], [PrefixPrintf] and
    [PrefixFatalf] write the prefix and then the very text that [Printf]
    writes for the format and the operands. *)
Theorem PrefixPrintf_index_free (l : gcplog.Logger) (format : string)
        (v : list fmt.any) (text out : string)
        (Hfree : indexFree format = true)
        (Htext : fmt.doPrintf fmt.Text format v 0 false = Some text) :
  gcplog.Printf sp l format v out = gcplog.output l text out
  /\ gcplog.PrefixPrintf sp l format v out
     = gcplog.output l (gcplog.severity l ++ ": " ++ text) out
  /\ gcplog.PrefixFatalf sp l format v out
     = (process.Exited 1,
        snd (gcplog.output l (gcplog.severity l ++ ": " ++ text) out)).
Proof.
  assert (E : fmt.Sprintf sp format v = text).
  { unfold fmt.Sprintf. now rewrite Htext. }
  unfold gcplog.Printf, gcplog.PrefixPrintf, gcplog.PrefixFatalf.
  rewrite (Sprintf_prefix sp l format v text Hfree Htext), E.
  repeat split.
Qed.

(** X10.  Whatever the severity held and whatever the text, the bytes of
    an emission are read as one object of exactly two members, [severity]
    first and [message] second, whose values are the severity and the
    trimmed text (a byte that is not UTF-8 as U+FFFD): no text can end
    the message early or add a member. *)
Theorem line_read_back (l : gcplog.Logger) (text out : string)
        (v : list fmt.any) :
  gcplog.output l text out
  = (process.Returned tt, out ++ emitted (gcplog.severity l) text)
  /\ jsonline.object2 (emitted (gcplog.severity l) text)
     = Some (("severity", coerce (gcplog.severity l)),
             ("message", coerce (strings.TrimSpace text)))
  /\ jsonline.object2 (snd (gcplog.Print l v EmptyString))
     = Some (("severity", coerce (gcplog.severity l)),
             ("message", coerce (strings.TrimSpace (fmt.Sprint v)))).
Proof.
  split; [apply output_writes|]. unfold gcplog.Print.
  rewrite output_writes. cbn [snd append]. unfold emitted.
  split; apply object2_record; apply escape_value.
Qed.

(** X11.  Emissions follow one another on standard output with nothing
    between them, no line break either; an emission behind a [Fatal] does
    not happen. *)
Theorem emissions_in_sequence (l1 l2 : gcplog.Logger) (v1 v2 : list fmt.any)
        (out : string) :
  (gcplog.Print l1 v1 ;; gcplog.Print l2 v2) out
  = (process.Returned tt,
     out ++ emitted (gcplog.severity l1) (fmt.Sprint v1)
         ++ emitted (gcplog.severity l2) (fmt.Sprint v2))
  /\ oneLine (emitted (gcplog.severity l1) (fmt.Sprint v1)
              ++ emitted (gcplog.severity l2) (fmt.Sprint v2)) = true
  /\ (gcplog.Fatal l1 v1 ;; gcplog.Print l2 v2) out
     = (process.Exited 1,
        out ++ emitted (gcplog.severity l1) (fmt.Sprint v1)).
Proof.
  unfold gcplog.Print, gcplog.Fatal. split; [|split].
  - rewrite (bind_returned _ _ _ _ _ (output_writes l1 _ out)).
    rewrite output_writes. now rewrite bytes_app_assoc.
  - unfold oneLine, emitted. rewrite all_app.
    pose proof (record_oneLine _ _ (escape_oneLine (gcplog.severity l1))
                  (escape_oneLine (strings.TrimSpace (fmt.Sprint v1)))) as H1.
    pose proof (record_oneLine _ _ (escape_oneLine (gcplog.severity l2))
                  (escape_oneLine (strings.TrimSpace (fmt.Sprint v2)))) as H2.
    unfold oneLine in H1, H2. now rewrite H1, H2.
  - apply bind_exited.
    now rewrite (bind_returned _ _ _ _ _ (output_writes l1 _ out)).
Qed.

(** A format without [%] is copied, and the operands, for which it has
    no verb, are reported behind it. *)
Lemma doPrintf_plain (format : string) (a : list fmt.any) (n : nat)
      (reordered : bool) :
  percentFree format = true ->
  fmt.doPrintf fmt.Text format a n reordered
  = Some (format ++ fmt.extra a n reordered).
Proof.
  unfold percentFree. induction format as [|c rest IH]; [reflexivity|].
  cbn [Bytes.any]. rewrite negb_orb. intros [Hc Hrest]%andb_true_iff.
  apply negb_true_iff in Hc. rewrite Ascii.eqb_sym in Hc.
  cbn [fmt.doPrintf]. now rewrite Hc, (IH Hrest).
Qed.

(** X12.  [Printf] of a format without [%] logs the format itself, as
    [Print] does for that string, and [PrefixPrintf] logs it behind the
    prefix, as [PrefixPrint] does; operands given with such a format are
    not dropped in silence, the text reports them behind the format. *)
Theorem Printf_plain_format (l : gcplog.Logger) (format : string)
        (v : list fmt.any)
        (Hplain : percentFree format = true) :
  gcplog.Printf sp l format [] = gcplog.Print l [fmt.VString format]
  /\ gcplog.PrefixPrintf sp l format []
     = gcplog.PrefixPrint l [fmt.VString format]
  /\ fmt.Sprintf sp format v = format ++ fmt.extra v 0 false.
Proof.
  assert (E0 : forall a, fmt.Sprintf sp format a
                         = format ++ fmt.extra a 0 false).
  { intros a. unfold fmt.Sprintf.
    now rewrite (doPrintf_plain format a 0 false Hplain). }
  assert (E2 : fmt.Sprint [fmt.VString format] = format).
  { unfold fmt.Sprint. simpl. apply bytes_app_nil_r. }
  assert (E3 : fmt.Sprintf sp ("%s%s" ++ format) (gcplog.prefix l [])
               = gcplog.severity l ++ ": " ++ format).
  { unfold fmt.Sprintf, gcplog.prefix.
    change (fmt.doPrintf fmt.Text ("%s%s" ++ format) _ 0 false)
      with (fmt.app2 (Some (gcplog.severity l))
              (fmt.app2 (Some ": ")
                 (fmt.doPrintf fmt.Text format
                    ([fmt.VString (gcplog.severity l); fmt.VString ": "]
                     ++ []) 2 false))).
    rewrite (doPrintf_plain format _ 2 false Hplain). cbn.
    now rewrite bytes_app_nil_r. }
  unfold gcplog.Printf, gcplog.Print, gcplog.PrefixPrintf, gcplog.PrefixPrint.
  rewrite E0, E2, E3, Sprint_prefix, E2.
  cbn [fmt.extra List.length Nat.ltb Nat.leb andb negb].
  now rewrite bytes_app_nil_r.
Qed.


(** X14.  Trimming comes after the prefix.  When the severity of the
    logger does not begin with white space (so it is for the loggers of
    [New] and [SetSeverity] with an ASCII severity, see
    [reachable_ascii_no_space]) and the formatted text is empty or white
    space only, [PrefixPrint] and [PrefixFatal] write the message of the
    severity and a bare colon, the space of the prefix being trimmed away
    with the text; so do [PrefixPrintf] and [PrefixFatalf] on a format
    without explicit argument index, made of plain bytes and the verbs
    [%v], [%s], [%d] and [%%]. *)
Theorem Prefix_blank_text (l : gcplog.Logger) (v w : list fmt.any)
        (format text out : string)
        (Hsev : unicode.IsSpace
                  (fst (utf8.DecodeRuneInString (gcplog.severity l))) = false)
        (Hv : strings.TrimSpace (fmt.Sprint v) = EmptyString)
        (Hfree : indexFree format = true)
        (Hw : fmt.doPrintf fmt.Text format w 0 false = Some text)
        (Htext : strings.TrimSpace text = EmptyString) :
  gcplog.PrefixPrint l v out
  = (process.Returned tt,
     out ++ record (json.escape (gcplog.severity l))
                   (json.escape (gcplog.severity l ++ ":")))
  /\ gcplog.PrefixFatal l v out
     = (process.Exited 1,
        out ++ record (json.escape (gcplog.severity l))
                      (json.escape (gcplog.severity l ++ ":")))
  /\ gcplog.PrefixPrintf sp l format w out
     = (process.Returned tt,
        out ++ record (json.escape (gcplog.severity l))
                      (json.escape (gcplog.severity l ++ ":")))
  /\ gcplog.PrefixFatalf sp l format w out
     = (process.Exited 1,
        out ++ record (json.escape (gcplog.severity l))
                      (json.escape (gcplog.severity l ++ ":"))).
Proof.
  assert (E : fmt.Sprintf sp format w = text).
  { unfold fmt.Sprintf. now rewrite Hw. }
  unfold gcplog.PrefixPrint, gcplog.PrefixFatal, gcplog.PrefixPrintf,
    gcplog.PrefixFatalf.
  rewrite (Sprintf_prefix sp l format w text Hfree Hw), E, Sprint_prefix,
    !output_then_exit, !output_emitted.
  unfold emitted.
  rewrite (TrimSpace_prefix_blank _ _ Hsev Hv),
    (TrimSpace_prefix_blank _ _ Hsev Htext).
  repeat split.
Qed.

End Lines.

(** ** The statements of Part III at concrete inputs *)

Lemma ascii_setter_matches_constructor_witness :
  gcplog.severity (gcplog.SetSeverity keepNonASCII gcplog.defaultLogger "Notice")
  = "NOTICE"
  /\ strings.ToUpper keepNonASCII
       (gcplog.severity (gcplog.New keepNonASCII ["Notice"]))
     = gcplog.severity
         (gcplog.SetSeverity keepNonASCII gcplog.defaultLogger "Notice").
Proof.
  pose proof (ascii_setter_matches_constructor keepNonASCII
                gcplog.defaultLogger "Notice" eq_refl) as H.
  split; apply H.
Defined.

Lemma ascii_line_read_back_witness :
  jsonline.object2
    (snd (gcplog.output (gcplog.New keepNonASCII ["warning"])
                        (" disk <full>" ++ newline) EmptyString))
  = Some (("severity", "warning"), ("message", "disk <full>")).
Proof.
  destruct (ascii_line_read_back keepNonASCII
              (gcplog.New keepNonASCII ["warning"])
              (" disk <full>" ++ newline) EmptyString
              eq_refl eq_refl eq_refl) as [Hw Hr].
  rewrite Hw. exact Hr.
Defined.

Lemma output_ignores_outer_space_witness :
  gcplog.output gcplog.defaultLogger ((" " ++ tab) ++ "a  b" ++ newline)
                EmptyString
  = gcplog.output gcplog.defaultLogger "a  b" EmptyString.
Proof.
  apply (output_ignores_outer_space gcplog.defaultLogger
           (" " ++ tab) "a  b" newline EmptyString eq_refl eq_refl).
Defined.

Lemma PrefixPrint_text_kept_witness :
  gcplog.PrefixPrint gcplog.defaultLogger [fmt.VString "  hi "] EmptyString
  = (process.Returned tt, record "DEFAULT" "DEFAULT:   hi").
Proof.
  apply (PrefixPrint_text_kept gcplog.defaultLogger [fmt.VString "  hi "]
           EmptyString eq_refl).
  vm_compute. lia.
Defined.

Lemma PrefixPrintf_index_free_witness :
  gcplog.PrefixPrintf noOther gcplog.defaultLogger "[%s] n=%d"
    [fmt.VString "disk"; fmt.VInt 3] EmptyString
  = gcplog.output gcplog.defaultLogger "DEFAULT: [disk] n=3" EmptyString.
Proof.
  apply (PrefixPrintf_index_free noOther gcplog.defaultLogger "[%s] n=%d"
           [fmt.VString "disk"; fmt.VInt 3] "[disk] n=3" EmptyString
           eq_refl eq_refl).
Defined.

Lemma Printf_plain_format_witness :
  gcplog.Printf noOther gcplog.defaultLogger "ready" []
  = gcplog.Print gcplog.defaultLogger [fmt.VString "ready"].
Proof.
  apply (Printf_plain_format noOther gcplog.defaultLogger "ready" []
           eq_refl).
Defined.

Lemma Prefix_blank_text_witness :
  gcplog.PrefixPrint (gcplog.New keepNonASCII []) [fmt.VString "  "] EmptyString
  = (process.Returned tt, record "DEFAULT" "DEFAULT:")
  /\ gcplog.PrefixFatalf noOther (gcplog.New keepNonASCII []) " %s" [fmt.VString tab]
       EmptyString
     = (process.Exited 1, record "DEFAULT" "DEFAULT:").
Proof.
  pose proof (Prefix_blank_text noOther (gcplog.New keepNonASCII [])
                [fmt.VString "  "] [fmt.VString tab] " %s" (" " ++ tab) EmptyString
                eq_refl eq_refl eq_refl eq_refl eq_refl) as H.
  split; [apply H | apply H].
Defined.
